(** * Hacker News "newest" validator: a shallow embedding of [index.js]

    The development follows the source file section by section: utility
    helpers ([withRetry]), scraping and pagination ([getFirstNArticles]),
    time parsing and validation ([parseIsoTimestamp],
    [parseRelativeAgeToTimestamp], [toTimestamp], [checkTimestampsParsable],
    [checkSortedNewestToOldest], [validateArticles]) and reporting
    ([buildResultObject]).

    Modelling conventions.
    - A JavaScript number that holds an integer is a [Z]; the value [NaN] is a
      separate constructor of [number].  Doubles are exact on integers of
      magnitude up to 2^53, which covers every epoch-millisecond value a [Date]
      can hold (at most 8.64e15); beyond that magnitude the model keeps the
      exact integer where the machine would round or overflow.
    - A JavaScript string is a [string] whose characters are its code units
      (code units 0..255).
    - [null] is [None].
    - The browser page is an abstract world [W] threaded through the
      asynchronous functions; [await] is sequencing, a thrown exception is
      the [Throw] result.
    - Console output is not modelled. *)

From Stdlib Require Import ZArith NArith Lia Bool Ascii String DecimalString.
From Stdlib Require DecimalN DecimalPos.
From stdpp Require Import base list.

Local Open Scope string_scope.

(** ** JavaScript values *)

(** A number: an integer value or NaN. *)
Inductive number : Type :=
| Num (z : Z)
| NaN.

Definition Number_isNaN (x : number) : bool :=
  match x with NaN => true | Num _ => false end.

(** [x < y] on numbers: false as soon as one side is NaN. *)
Definition num_lt (x y : number) : bool :=
  match x, y with
  | Num a, Num b => (a <? b)%Z
  | _, _ => false
  end.

(** String of an integer-valued number, as a template literal prints it. *)
Definition String_of_Z (z : Z) : string := NilZero.string_of_int (Z.to_int z).

Definition String_of_N (n : N) : string := NilZero.string_of_uint (N.to_uint n).

(** Thrown values. *)
Inductive exn : Type :=
| Error (msg : string)
| RangeError (msg : string).

Definition exn_to_string (e : exn) : string :=
  match e with
  | Error m => "Error: " ++ m
  | RangeError m => "RangeError: " ++ m
  end.

Inductive result (A : Type) : Type :=
| Ok (a : A)
| Throw (e : exn).
Arguments Ok {A} a.
Arguments Throw {A} e.

Definition result_bind {A B} (r : result A) (k : A -> result B) : result B :=
  match r with
  | Ok a => k a
  | Throw e => Throw e
  end.

(** ** Configuration *)

Definition EXPECTED_ARTICLE_COUNT : nat := 200.
Definition MAX_PAGES_TO_VISIT : nat := 10.

(** ** The runtime library

    What the script uses of the JavaScript runtime and cannot be written
    with integers alone: [Date.parse] (whose accepted formats are partly
    implementation-defined), the text of [Date.prototype.toISOString] for a
    valid time value, and [(num / den).toFixed(2)], a floating-point
    division followed by decimal rounding. *)
Class JsRuntime : Type := {
  Date_parse : string -> number;
  Date_isoFormat : Z -> string;
  toFixed2 : Z -> Z -> string;
}.

(** A time value is valid when its magnitude is at most 8.64e15 ms. *)
Definition MAX_TIME_VALUE : Z := 8640000000000000.

Definition valid_time (t : Z) : bool := (Z.abs t <=? MAX_TIME_VALUE)%Z.

(** [new Date(t).toISOString()]: a RangeError on an invalid date. *)
Definition Date_toISOString `{JsRuntime} (t : Z) : result string :=
  if valid_time t then Ok (Date_isoFormat t)
  else Throw (RangeError "Invalid time value").

(** ** Character classes and the age pattern *)

Definition code (c : ascii) : N := N_of_ascii c.

(** [\d]: 0-9. *)
Definition is_digit (c : ascii) : bool :=
  ((48 <=? code c) && (code c <=? 57))%N.

(** [\s] on code units below 256: TAB, LF, VT, FF, CR, space, NBSP. *)
Definition is_space (c : ascii) : bool :=
  (((9 <=? code c) && (code c <=? 13)) || (code c =? 32) || (code c =? 160))%N.

(** [\w]: A-Z, a-z, 0-9 and underscore. *)
Definition is_word (c : ascii) : bool :=
  (((65 <=? code c) && (code c <=? 90)) || ((97 <=? code c) && (code c <=? 122))
   || is_digit c || (code c =? 95))%N.

(** The longest prefix of [s] whose characters satisfy [p], and the rest:
    what a greedy [c+] consumes. *)
Fixpoint span (p : ascii -> bool) (s : string) : string * string :=
  match s with
  | EmptyString => (EmptyString, EmptyString)
  | String c s' =>
      if p c then let '(a, b) := span p s' in (String c a, b)
      else (EmptyString, s)
  end.

Definition is_empty (s : string) : bool :=
  match s with EmptyString => true | _ => false end.

(** [/(\d+)\s+(\w+)/] anchored at the start of [s].  The three classes that
    follow one another are pairwise exclusive ([\d] against [\s], [\s]
    against [\w]), so giving back characters of a greedy run never makes a
    failed attempt succeed: the match, when there is one, takes the three
    longest runs.  The result is the pair of groups (match[1], match[2]). *)
Definition match_at (s : string) : option (string * string) :=
  let '(ds, r1) := span is_digit s in
  if is_empty ds then None else
  let '(ws, r2) := span is_space r1 in
  if is_empty ws then None else
  let '(wd, _) := span is_word r2 in
  if is_empty wd then None else Some (ds, wd).

(** [s.match(/(\d+)\s+(\w+)/)]: the match at the leftmost position that has
    one. *)
Fixpoint age_match (s : string) : option (string * string) :=
  match match_at s with
  | Some m => Some m
  | None =>
      match s with
      | EmptyString => None
      | String _ s' => age_match s'
      end
  end.

Definition digit_value (c : ascii) : Z := Z.of_N (code c - 48).

(** [Number(ds)] for a string of decimal digits. *)
Fixpoint Number_acc (acc : Z) (ds : string) : Z :=
  match ds with
  | EmptyString => acc
  | String c ds' => Number_acc (acc * 10 + digit_value c) ds'
  end.

Definition Number_digits (ds : string) : Z := Number_acc 0 ds.

Definition lower_char (c : ascii) : ascii :=
  if ((65 <=? code c) && (code c <=? 90))%N then ascii_of_N (code c + 32) else c.

(** [toLowerCase] on a run of word characters. *)
Fixpoint toLowerCase (s : string) : string :=
  match s with
  | EmptyString => EmptyString
  | String c s' => String (lower_char c) (toLowerCase s')
  end.

Definition startsWith (s p : string) : bool := String.prefix p s.

(** ** Time parsing *)

Record Article : Type := mkArticle {
  title : string;
  ageText : string;
  ageISO : option string;
}.

Definition parseIsoTimestamp `{JsRuntime} (iso : option string) : option Z :=
  match iso with
  | None => None
  | Some s =>
      if is_empty s then None
      else match Date_parse s with
           | NaN => None
           | Num t => Some t
           end
  end.

Definition parseRelativeAgeToTimestamp (ageText : string) (nowMs : Z) : option Z :=
  match age_match ageText with
  | None => None
  | Some (m1, m2) =>
      let value := Number_digits m1 in
      let unit := toLowerCase m2 in
      let secondsAgo :=
        if startsWith unit "second" then Some value
        else if startsWith unit "minute" then Some (value * 60)%Z
        else if startsWith unit "hour" then Some (value * 60 * 60)%Z
        else if startsWith unit "day" then Some (value * 24 * 60 * 60)%Z
        else None in
      match secondsAgo with
      | None => None
      | Some secs => Some (nowMs - secs * 1000)%Z
      end
  end.

Definition toTimestamp `{JsRuntime} (article : Article) (nowMs : Z) : number :=
  match parseIsoTimestamp (ageISO article) with
  | Some fromIso => Num fromIso
  | None =>
      match parseRelativeAgeToTimestamp (ageText article) nowMs with
      | Some fromRelative => Num fromRelative
      | None => NaN
      end
  end.

(** ** Validation *)

(** An article enriched with its 1-based index and computed timestamp. *)
Module Detail.
Record t : Type := mk {
  index : Z;
  title : string;
  ageText : string;
  ageISO : option string;
  timestamp : number;
}.
End Detail.

(** The result of one check: [{ ok, problems }]. *)
Module Check.
Record t : Type := mk {
  ok : bool;
  problems : list string;
}.
End Check.

(** The result of [validateArticles]: [{ isSorted, details, problems }]. *)
Module Validation.
Record t : Type := mk {
  isSorted : bool;
  details : list Detail.t;
  problems : list string;
}.
End Validation.

Definition enrichArticlesWithTimestamps `{JsRuntime}
    (articles : list Article) (nowMs : Z) : list Detail.t :=
  imap (fun index a =>
          Detail.mk (Z.of_nat index + 1) (title a) (ageText a) (ageISO a)
                    (toTimestamp a nowMs))
       articles.

(** The double-quote character of the messages. *)
Definition dquote : string :=
  String (Ascii false true false false false true false false) EmptyString.

Definition unparsableProblem (d : Detail.t) : string :=
  "Unparsable timestamp for article #" ++ String_of_Z (Detail.index d) ++ ": " ++
  dquote ++ Detail.title d ++ dquote ++ " (" ++ Detail.ageText d ++ ", ISO: " ++
  match Detail.ageISO d with Some iso => iso | None => "none" end ++ ")".

(** The [for ... of] loop pushes onto [problems], left to right. *)
Definition checkTimestampsParsable (details : list Detail.t) : Check.t :=
  let problems :=
    fold_left (fun problems d =>
                 if Number_isNaN (Detail.timestamp d)
                 then (problems ++ [unparsableProblem d])%list
                 else problems)
              details [] in
  Check.mk (Nat.eqb (length problems) 0) problems.

Definition orderingProblem (prev curr : Detail.t) : string :=
  "Ordering issue between #" ++ String_of_Z (Detail.index prev) ++ " and #" ++
  String_of_Z (Detail.index curr) ++ ": " ++
  dquote ++ Detail.title prev ++ dquote ++ " (" ++ Detail.ageText prev ++
  ") appears before " ++
  dquote ++ Detail.title curr ++ dquote ++ " (" ++ Detail.ageText curr ++
  "), but has an *older* timestamp.".

(** The loop [for (let i = 1; i < details.length; i++)] from index [i] on.
    The second component is [problems]; the first lists, in order, the
    values of [i] for which the body ran, that is the adjacent pairs
    [(i-1, i)] the loop looked at.  No more than [details.length] rounds
    are ever needed, which is the [fuel] the check passes. *)
Fixpoint sortedLoop (details : list Detail.t) (fuel i : nat)
  : list nat * list string :=
  match fuel with
  | O => ([], [])
  | S fuel' =>
      if (i <? length details)%nat then
        match details !! (i - 1)%nat, details !! i with
        | Some prev, Some curr =>
            if Number_isNaN (Detail.timestamp prev)
               || Number_isNaN (Detail.timestamp curr)
            then (* continue *)
              let '(seen, problems) := sortedLoop details fuel' (S i) in
              (i :: seen, problems)
            else if num_lt (Detail.timestamp prev) (Detail.timestamp curr)
            then (* push, break *)
              ([i], [orderingProblem prev curr])
            else
              let '(seen, problems) := sortedLoop details fuel' (S i) in
              (i :: seen, problems)
        | _, _ => ([], [])
        end
      else ([], [])
  end.

Definition checkSortedNewestToOldest (details : list Detail.t) : Check.t :=
  let problems := snd (sortedLoop details (length details) 1) in
  Check.mk (Nat.eqb (length problems) 0) problems.

(** The adjacent pairs the sort check looked at, by the index of their
    second item. *)
Definition pairsEvaluated (details : list Detail.t) : list nat :=
  fst (sortedLoop details (length details) 1).

Definition validateArticles `{JsRuntime}
    (articles : list Article) (nowMs : Z) : Validation.t :=
  let details := enrichArticlesWithTimestamps articles nowMs in
  let parseCheck := checkTimestampsParsable details in
  let sortCheck := checkSortedNewestToOldest details in
  let problems := (Check.problems parseCheck ++ Check.problems sortCheck)%list in
  Validation.mk (Check.ok parseCheck && Check.ok sortCheck) details problems.

(** ** Reporting *)

Module Meta.
Record t : Type := mk {
  startedAt : string;
  finishedAt : string;
  durationMs : Z;
  durationSeconds : string;
  expectedCount : nat;
  actualCount : nat;
}.
End Meta.

Module Outcome.
Record t : Type := mk {
  passed : bool;
  isSorted : bool;
  problemCount : nat;
  problems : list string;
}.
End Outcome.

Module Stats.
Record t : Type := mk {
  oldestTimestamp : string;
  newestTimestamp : string;
  timeSpanHours : string;
  unparsableCount : nat;
}.
End Stats.

Module Sample.
Record t : Type := mk {
  position : Z;
  title : string;
  age : string;
}.
End Sample.

(** The report; [first5] and [last3] are the two lists of its
    [sampleArticles]. *)
Module Report.
Record t : Type := mk {
  meta : Meta.t;
  validation : Outcome.t;
  statistics : option Stats.t;
  first5 : list Sample.t;
  last3 : list Sample.t;
}.
End Report.

(** [Math.min(t0, ...rest)] and [Math.max(t0, ...rest)]. *)
Definition Math_min (t0 : Z) (rest : list Z) : Z := fold_left Z.min rest t0.
Definition Math_max (t0 : Z) (rest : list Z) : Z := fold_left Z.max rest t0.

(** [details.map(d => d.timestamp).filter(t => !Number.isNaN(t))]. *)
Definition parsedTimestamps (details : list Detail.t) : list Z :=
  omap (fun d => match Detail.timestamp d with Num t => Some t | NaN => None end)
       details.

Definition buildStats `{JsRuntime} (details : list Detail.t)
  : result (option Stats.t) :=
  match parsedTimestamps details with
  | [] => Ok None
  | t0 :: rest =>
      result_bind (Date_toISOString (Math_min t0 rest)) (fun oldest =>
      result_bind (Date_toISOString (Math_max t0 rest)) (fun newest =>
      Ok (Some (Stats.mk oldest newest
                  (toFixed2 (Math_max t0 rest - Math_min t0 rest)
                            (1000 * 60 * 60))
                  (length (List.filter
                             (fun d => Number_isNaN (Detail.timestamp d))
                             details))))))
  end.

(** [articles.slice(0, 5)] and [articles.slice(-3)]. *)
Definition slice_first (k : nat) {A} (l : list A) : list A := take k l.
Definition slice_last (k : nat) {A} (l : list A) : list A :=
  drop (length l - k) l.

Definition buildResultObject `{JsRuntime}
    (articles : list Article) (validationResult : Validation.t)
    (startedAt finishedAt : Z) : result Report.t :=
  result_bind (buildStats (Validation.details validationResult)) (fun stats =>
  result_bind (Date_toISOString startedAt) (fun started =>
  result_bind (Date_toISOString finishedAt) (fun finished =>
  Ok (Report.mk
        (Meta.mk started finished (finishedAt - startedAt)
                 (toFixed2 (finishedAt - startedAt) 1000)
                 EXPECTED_ARTICLE_COUNT (length articles))
        (Outcome.mk (Validation.isSorted validationResult)
                    (Validation.isSorted validationResult)
                    (length (Validation.problems validationResult))
                    (Validation.problems validationResult))
        stats
        (imap (fun i a => Sample.mk (Z.of_nat i + 1) (title a) (ageText a))
              (slice_first 5 articles))
        (imap (fun i a =>
                 Sample.mk (Z.of_nat (length articles) - 2 + Z.of_nat i)
                           (title a) (ageText a))
              (slice_last 3 articles)))))).

(** ** The page and the asynchronous functions

    The Playwright page is an abstract world [W].  An asynchronous function
    is a function of the world that gives a value or a thrown exception, and
    the world after it; sequential [await]s compose them. *)
Definition Async (W A : Type) : Type := W -> result A * W.

Definition ret {W A} (a : A) : Async W A := fun w => (Ok a, w).

Definition throw {W A} (e : exn) : Async W A := fun w => (Throw e, w).

Definition bind {W A B} (m : Async W A) (k : A -> Async W B) : Async W B :=
  fun w =>
    match m w with
    | (Ok a, w') => k a w'
    | (Throw e, w') => (Throw e, w')
    end.

(** [try { m } catch (err) { ... }]: the outcome of [m] as a value. *)
Definition try {W A} (m : Async W A) : Async W (result A) :=
  fun w => let '(r, w') := m w in (Ok r, w').

Notation "'do' x <- m ; k" := (bind m (fun x => k))
  (at level 10, x name, m at level 100, k at level 200).

(** What the script asks of the page:
    [page.waitForSelector('tr.athing', ...)],
    [page.$$eval('tr.athing', rows => ...)] with its row mapper,
    whether [page.$('a.morelink')] finds the link,
    the click awaited together with [page.waitForURL(...)],
    and the passing of [ms] milliseconds. *)
Class Page (W : Type) : Type := {
  waitForSelector : Async W unit;
  evalRows : Async W (list Article);
  findMoreLink : Async W bool;
  clickAndWaitForURL : Async W unit;
  sleep : Z -> W -> W;
}.

Section Collector.
Context {W : Type} `{Page W}.

Definition sleepFor (ms : Z) : Async W unit := fun w => (Ok tt, sleep ms w).

(** [withRetry]: the loop [for (let i = 1; i <= attempts; i++)] with
    [k] rounds left, then the final [throw]. *)
Fixpoint retryLoop {A} (fn : Async W A) (attempts : nat) (delayMs : Z)
    (label : string) (k i : nat) (lastError : option exn) : Async W A :=
  match k with
  | O =>
      throw (Error ("[Retry] " ++ label ++ " failed after " ++
                    String_of_N (N.of_nat attempts) ++ " attempts: " ++
                    match lastError with
                    | Some err => exn_to_string err
                    | None => "undefined"
                    end))
  | S k' =>
      fun w =>
        match fn w with
        | (Ok a, w') => (Ok a, w')
        | (Throw err, w') =>
            retryLoop fn attempts delayMs label k' (S i) (Some err)
                      (if (i <? attempts)%nat then sleep delayMs w' else w')
        end
  end.

Definition withRetry {A} (fn : Async W A) (attempts : nat) (delayMs : Z)
    (label : string) : Async W A :=
  retryLoop fn attempts delayMs label attempts 1 None.

Definition scrapeArticlesOnPage : Async W (list Article) :=
  do waited <- try waitForSelector;
  match waited with
  | Throw _ => ret []
  | Ok _ => evalRows
  end.

Definition navigateToNextPage : Async W unit :=
  do moreLink <- findMoreLink;
  if negb moreLink
  then throw (Error ("Could not find " ++ dquote ++ "More" ++ dquote ++
                     " link for pagination."))
  else
    do _ <- clickAndWaitForURL;
    sleepFor 500.

(** Why the [while] loop of [getFirstNArticles] was left: the loop
    condition failed or the target was reached after a push, the page
    limit was exceeded, a page had no articles, or navigation failed
    after its retries. *)
Inductive ExitCause : Type :=
| TargetReached
| PageLimit
| EmptyPage
| NavigationFailed.

(** The state of the loop when it is left: the two local variables, and
    the cause. *)
Record LoopEnd : Type := mkLoopEnd {
  collected : list Article;
  pagesVisited : nat;
  cause : ExitCause;
}.

Inductive LoopStep : Type :=
| Continue (collected : list Article) (pagesVisited : nat)
| Break (final : LoopEnd).

(** One round: the loop condition and the body. *)
Definition loopRound (n : nat) (collected : list Article) (pagesVisited : nat)
  : Async W LoopStep :=
  if (length collected <? n)%nat then
    let pagesVisited := S pagesVisited in
    if (MAX_PAGES_TO_VISIT <? pagesVisited)%nat
    then ret (Break (mkLoopEnd collected pagesVisited PageLimit))
    else
      do pageArticles <- scrapeArticlesOnPage;
      if (length pageArticles =? 0)%nat
      then ret (Break (mkLoopEnd collected pagesVisited EmptyPage))
      else
        let collected := (collected ++ pageArticles)%list in
        if (n <=? length collected)%nat
        then ret (Break (mkLoopEnd collected pagesVisited TargetReached))
        else
          do navigated <- try (withRetry navigateToNextPage 2 2000
                                         "pagination navigation");
          match navigated with
          | Throw _ =>
              ret (Break (mkLoopEnd collected pagesVisited NavigationFailed))
          | Ok _ => ret (Continue collected pagesVisited)
          end
  else ret (Break (mkLoopEnd collected pagesVisited TargetReached)).

(** The [while] loop; [None] when [fuel] rounds did not leave it. *)
Fixpoint whileLoop (fuel n : nat) (collected : list Article)
    (pagesVisited : nat) : Async W (option LoopEnd) :=
  match fuel with
  | O => ret None
  | S fuel' =>
      do step <- loopRound n collected pagesVisited;
      match step with
      | Break final => ret (Some final)
      | Continue collected pagesVisited =>
          whileLoop fuel' n collected pagesVisited
      end
  end.

(** The loop from its initial state.  Every round increments
    [pagesVisited] and a round that finds it above [MAX_PAGES_TO_VISIT]
    breaks, so [MAX_PAGES_TO_VISIT + 1] rounds always leave the loop. *)
Definition collectLoop (n : nat) : Async W (option LoopEnd) :=
  whileLoop (S MAX_PAGES_TO_VISIT) n [] 0.

(** [collected.slice(0, n)] after the loop. *)
Definition getFirstNArticles (n : nat) : Async W (option (list Article)) :=
  do final <- collectLoop n;
  ret (option_map (fun f => take n (collected f)) final).

End Collector.

(** ** A reference runtime

    An instance of [JsRuntime] for running the definitions on concrete
    inputs.  It is a runtime whose local time zone is UTC.  Its [Date.parse]
    accepts the date-time form [YYYY-MM-DDTHH:mm:ss], with or without a
    final [Z], and nothing else; its [toFixed2] rounds the exact quotient. *)
Module RefRuntime.

(** Days from 1970-01-01 to the civil date [y]-[m]-[d]. *)
Definition days_from_civil (y m d : Z) : Z :=
  (let y := if m <=? 2 then y - 1 else y in
   let era := y / 400 in
   let yoe := y - era * 400 in
   let mp := if 2 <? m then m - 3 else m + 9 in
   let doy := (153 * mp + 2) / 5 + d - 1 in
   let doe := yoe * 365 + yoe / 4 - yoe / 100 + doy in
   era * 146097 + doe - 719468)%Z.

(** The civil date of a day count. *)
Definition civil_from_days (z : Z) : Z * Z * Z :=
  (let z := z + 719468 in
   let era := z / 146097 in
   let doe := z - era * 146097 in
   let yoe := (doe - doe / 1460 + doe / 36524 - doe / 146096) / 365 in
   let doy := doe - (365 * yoe + yoe / 4 - yoe / 100) in
   let mp := (5 * doy + 2) / 153 in
   let d := doy - (153 * mp + 2) / 5 + 1 in
   let m := if mp <? 10 then mp + 3 else mp - 9 in
   ((if m <=? 2 then yoe + era * 400 + 1 else yoe + era * 400), m, d))%Z.

Definition is_leap (y : Z) : bool :=
  ((y mod 4 =? 0) && (negb (y mod 100 =? 0) || (y mod 400 =? 0)))%Z.

Definition days_in_month (y m : Z) : Z :=
  (if m =? 2 then (if is_leap y then 29 else 28)
   else if (m =? 4) || (m =? 6) || (m =? 9) || (m =? 11) then 30 else 31)%Z.

(** Exactly [k] digits at the start of [s], and the rest. *)
Fixpoint read_digits (k : nat) (acc : Z) (s : string) : option (Z * string) :=
  match k with
  | O => Some (acc, s)
  | S k' =>
      match s with
      | String c s' =>
          if is_digit c then read_digits k' (acc * 10 + digit_value c) s'
          else None
      | EmptyString => None
      end
  end.

Definition expect (c : ascii) (s : string) : option string :=
  match s with
  | String c' s' => if Ascii.eqb c c' then Some s' else None
  | EmptyString => None
  end.

Definition parse_fields (s : string) : option (Z * Z * Z * Z * Z * Z * string) :=
  '(y, s) ← read_digits 4 0 s;
  s ← expect "-" s;
  '(m, s) ← read_digits 2 0 s;
  s ← expect "-" s;
  '(d, s) ← read_digits 2 0 s;
  s ← expect "T" s;
  '(hh, s) ← read_digits 2 0 s;
  s ← expect ":" s;
  '(mm, s) ← read_digits 2 0 s;
  s ← expect ":" s;
  '(ss, s) ← read_digits 2 0 s;
  Some (y, m, d, hh, mm, ss, s).

Definition parse (s : string) : number :=
  match parse_fields s with
  | Some (y, m, d, hh, mm, ss, rest) =>
      if ((1 <=? m) && (m <=? 12) && (1 <=? d) && (d <=? days_in_month y m)
          && (hh <=? 23) && (mm <=? 59) && (ss <=? 59))%Z
         && (String.eqb rest "" || String.eqb rest "Z")
      then Num ((((days_from_civil y m d * 24 + hh) * 60 + mm) * 60 + ss) * 1000)%Z
      else NaN
  | None => NaN
  end.

(** [z] in decimal, left-padded with zeros to [width] digits. *)
Definition pad (width : nat) (z : Z) : string :=
  let s := String_of_Z z in
  string_of_list_ascii (replicate (width - String.length s) "0"%char) ++ s.

Definition isoFormat (t : Z) : string :=
  let days := (t / 86400000)%Z in
  let ms := (t mod 86400000)%Z in
  let '(y, m, d) := civil_from_days days in
  (if ((0 <=? y) && (y <=? 9999))%Z then pad 4 y
   else if (y <? 0)%Z then "-" ++ pad 6 (- y) else "+" ++ pad 6 y)
  ++ "-" ++ pad 2 m ++ "-" ++ pad 2 d ++ "T" ++
  pad 2 (ms / 3600000)%Z ++ ":" ++ pad 2 ((ms / 60000) mod 60)%Z ++ ":" ++
  pad 2 ((ms / 1000) mod 60)%Z ++ "." ++ pad 3 (ms mod 1000)%Z ++ "Z".

Definition fixed2 (num den : Z) : string :=
  let q := ((200 * Z.abs num + Z.abs den) / (2 * Z.abs den))%Z in
  (if ((num * den <? 0) && (0 <? q))%Z then "-" else "") ++
  String_of_Z (q / 100)%Z ++ "." ++ pad 2 (q mod 100)%Z.

#[global] Instance runtime : JsRuntime := {|
  Date_parse := parse;
  Date_isoFormat := isoFormat;
  toFixed2 := fixed2;
|}.

End RefRuntime.

(** ** A scripted page

    A page for running the collector: the articles of the page on show, the
    pages that follow, the outcomes of the coming clicks on the "More" link
    ([false]: the URL never changes and the wait times out; once the script
    is used up every click succeeds), and the time slept so far. *)
Module Script.

Record world : Type := mk {
  current : list Article;
  later : list (list Article);
  clicks : list bool;
  slept : Z;
}.

Definition timeout : exn := Error "Timeout exceeded.".

#[global] Instance page : Page world := {|
  waitForSelector := fun w =>
    match current w with
    | [] => (Throw timeout, w)
    | _ => (Ok tt, w)
    end;
  evalRows := fun w => (Ok (current w), w);
  findMoreLink := fun w =>
    (Ok (match later w with [] => false | _ => true end), w);
  clickAndWaitForURL := fun w =>
    match clicks w with
    | false :: rest => (Throw timeout, mk (current w) (later w) rest (slept w))
    | _ =>
        match later w with
        | next :: rest => (Ok tt, mk next rest (tl (clicks w)) (slept w))
        | [] => (Throw timeout, w)
        end
    end;
  sleep := fun ms w => mk (current w) (later w) (clicks w) (slept w + ms);
|}.

(** [k] articles numbered from [from], each "[age] minutes ago" with the
    age growing down the list. *)
Fixpoint stories (from : nat) (k : nat) : list Article :=
  match k with
  | O => []
  | S k' =>
      mkArticle ("Story " ++ String_of_N (N.of_nat from))
                (String_of_N (N.of_nat from) ++ " minutes ago") None
      :: stories (S from) k'
  end.

(** Four articles a page for three pages, then an empty page. *)
Definition four_by_three : world :=
  mk (stories 1 4) [stories 5 4; stories 9 4; []] [] 0.

(** A page of four articles, a second page behind a click that works,
    and then two clicks that time out. *)
Definition broken_after_two : world :=
  mk (stories 1 4) [stories 5 4; stories 9 4] [true; false; false] 0.

(** Twelve pages of one article each. *)
Definition one_per_page : world :=
  mk (stories 1 1) (map (fun i => stories i 1) (seq 2 11)) [] 0.

End Script.

(** ** Vocabulary of the statements *)

(** Every character of [s] satisfies [p]. *)
Fixpoint all_chars (p : ascii -> bool) (s : string) : bool :=
  match s with
  | EmptyString => true
  | String c s' => p c && all_chars p s'
  end.

(** [s] is empty or starts with a character that fails [p]. *)
Definition stops (p : ascii -> bool) (s : string) : bool :=
  match s with
  | EmptyString => true
  | String c _ => negb (p c)
  end.

(** [s] contains a match of [\d+\s+\w+]: digits, then white space, then
    word characters, one or more of each. *)
Definition has_age_pattern (s : string) : Prop :=
  exists pre ds ws wd post,
    s = pre ++ ds ++ ws ++ wd ++ post /\
    ds <> "" /\ all_chars is_digit ds = true /\
    ws <> "" /\ all_chars is_space ws = true /\
    wd <> "" /\ all_chars is_word wd = true.

(** The unit word is one the parser knows. *)
Definition known_unit (u : string) : bool :=
  startsWith u "second" || startsWith u "minute" || startsWith u "hour"
  || startsWith u "day".

(** The adjacent pair [(i-1, i)] of [details] is an inversion: both
    timestamps are numbers and the earlier item is strictly older. *)
Definition inversion_at (details : list Detail.t) (i : nat) : bool :=
  match details !! (i - 1)%nat, details !! i with
  | Some prev, Some curr =>
      num_lt (Detail.timestamp prev) (Detail.timestamp curr)
  | _, _ => false
  end.

(** [Reaches n w0 collected pagesVisited w]: a run of the collector for [n]
    articles that started on the page [w0] comes to the head of the loop
    with these values of its variables, the page being [w]. *)
Inductive Reaches {W : Type} `{Page W} (n : nat) (w0 : W)
  : list Article -> nat -> W -> Prop :=
| Reaches_start : Reaches n w0 [] 0 w0
| Reaches_round collected pagesVisited w collected' pagesVisited' w' :
    Reaches n w0 collected pagesVisited w ->
    loopRound n collected pagesVisited w
      = (Ok (Continue collected' pagesVisited'), w') ->
    Reaches n w0 collected' pagesVisited' w'.

(** ** The main script

    What the entry point asks of its host besides the page: the launch of
    the browser with a new page, [page.goto] of the "newest" URL,
    [Date.now()], [page.screenshot], [fs.writeFileSync] of the report
    (the text written is [JSON.stringify] of it, kept here as the report
    itself), and [browser.close]. *)
Class Host (W : Type) : Type := {
  launchBrowser : Async W unit;
  goto : Async W unit;
  Date_now : W -> Z * W;
  screenshot : string -> Async W unit;
  writeFileSync : string -> Report.t -> Async W unit;
  closeBrowser : Async W unit;
}.

Definition JSON_REPORT_PATH : string := "hn_newest_report.json".

Module Main.

(** The variables the [try], [catch] and [finally] blocks share, and
    [process.exitCode]. *)
Record locals : Type := mkLocals {
  articles : list Article;
  validationResult : Validation.t;
  exitCode : option Z;
}.

(** What a run of the script leaves: the report it built and summarised, or
    the exception that escaped; the exit code; the world. *)
Record run (W : Type) : Type := mkRun {
  outcome : result Report.t;
  finalExitCode : option Z;
  world : W;
}.
Arguments mkRun {W} outcome finalExitCode world.
Arguments outcome {W} r.
Arguments finalExitCode {W} r.
Arguments world {W} r.

Section Entry.
Context {W : Type} `{JsRuntime} `{Page W} `{Host W}.

(** [captureScreenshot]: a failure of the screenshot is swallowed. *)
Definition captureScreenshot (path : string) : Async W unit :=
  do shot <- try (screenshot path);
  ret tt.

(** [writeJsonReport]: a failure of the write is swallowed. *)
Definition writeJsonReport (resultObj : Report.t) (filename : string)
  : Async W unit :=
  do written <- try (writeFileSync filename resultObj);
  ret tt.

(** The [try] block: its completion, the variables after it, the world.
    An assignment made before a throw stays made. *)
Definition tryBlock (vars : locals) (w : W) : result unit * locals * W :=
  match withRetry goto 3 2000 "initial navigation" w with
  | (Throw err, w) => (Throw err, vars, w)
  | (Ok _, w) =>
      let w := sleep 1000 w in
      match getFirstNArticles EXPECTED_ARTICLE_COUNT w with
      | (Throw err, w) => (Throw err, vars, w)
      | (Ok got, w) =>
          let collected := match got with Some l => l | None => [] end in
          let vars := mkLocals collected (validationResult vars) (exitCode vars) in
          if (length collected =? 0)%nat
          then (Throw (Error "No articles were collected. Cannot proceed with validation."),
                vars, w)
          else
            let '(nowMs, w) := Date_now w in
            let validated := validateArticles collected nowMs in
            let vars := mkLocals collected validated (exitCode vars) in
            if Validation.isSorted validated
            then (Ok tt, vars, w)
            else
              let '(_, w) := captureScreenshot "hn_validation_failure.png" w in
              (Ok tt, mkLocals collected validated (Some 1%Z), w)
      end
  end.

(** The [catch] block. *)
Definition catchBlock (vars : locals) (w : W) : locals * W :=
  let '(_, w) := captureScreenshot "hn_runtime_error.png" w in
  (mkLocals (articles vars) (validationResult vars) (Some 1%Z), w).

(** The [finally] block: the report is built and written whatever
    happened before; [buildResultObject] and [browser.close] can throw. *)
Definition finallyBlock (startedAt : Z) (vars : locals) (w : W) : run W :=
  let '(finishedAt, w) := Date_now w in
  match buildResultObject (articles vars) (validationResult vars)
                          startedAt finishedAt with
  | Throw err => mkRun (Throw err) (exitCode vars) w
  | Ok resultObj =>
      let '(_, w) := writeJsonReport resultObj JSON_REPORT_PATH w in
      match closeBrowser w with
      | (Throw err, w) => mkRun (Throw err) (exitCode vars) w
      | (Ok _, w) => mkRun (Ok resultObj) (exitCode vars) w
      end
  end.

(** The entry point. *)
Definition main (w : W) : run W :=
  let '(startedAt, w) := Date_now w in
  match launchBrowser w with
  | (Throw err, w) => mkRun (Throw err) None w
  | (Ok _, w) =>
      let vars := mkLocals [] (Validation.mk false [] []) None in
      let '(completion, vars, w) := tryBlock vars w in
      let '(vars, w) :=
        match completion with
        | Ok _ => (vars, w)
        | Throw _ => catchBlock vars w
        end in
      finallyBlock startedAt vars w
  end.

End Entry.
End Main.

(** ** A scripted host

    A host around the scripted page: the outcomes of the coming calls of
    [page.goto] ([false]: it times out; once the script is used up every
    call succeeds), a clock that advances with the time slept, the
    screenshots taken and the files written. *)
Module Session.

Record world : Type := mk {
  page : Script.world;
  gotos : list bool;
  clock : Z;
  shots : list string;
  files : list string;
}.

Definition on_page {A} (f : Async Script.world A) : Async world A :=
  fun w =>
    let '(r, p) := f (page w) in
    (r, mk p (gotos w) (clock w) (shots w) (files w)).

#[global] Instance session_page : Page world := {|
  waitForSelector := on_page waitForSelector;
  evalRows := on_page evalRows;
  findMoreLink := on_page findMoreLink;
  clickAndWaitForURL := on_page clickAndWaitForURL;
  sleep := fun ms w =>
    mk (sleep ms (page w)) (gotos w) (clock w) (shots w) (files w);
|}.

#[global] Instance host : Host world := {|
  launchBrowser := ret tt;
  goto := fun w =>
    match gotos w with
    | false :: rest =>
        (Throw Script.timeout, mk (page w) rest (clock w) (shots w) (files w))
    | _ => (Ok tt, mk (page w) (tl (gotos w)) (clock w) (shots w) (files w))
    end;
  Date_now := fun w => ((clock w + Script.slept (page w))%Z, w);
  screenshot := fun path w =>
    (Ok tt, mk (page w) (gotos w) (clock w) (shots w ++ [path])%list (files w));
  writeFileSync := fun name _ w =>
    (Ok tt, mk (page w) (gotos w) (clock w) (shots w) (files w ++ [name])%list);
  closeBrowser := ret tt;
|}.

Definition start (p : Script.world) (gotos : list bool) : world :=
  mk p gotos 1736084700000 [] [].

End Session.

(** [Failing fn delayMs k w w']: from [w], [k] attempts of [fn] in a row
    throw, each followed by a sleep of [delayMs], and leave the world [w']. *)
Inductive Failing {W A : Type} `{Page W} (fn : Async W A) (delayMs : Z)
  : nat -> W -> W -> Prop :=
| Failing_none w : Failing fn delayMs 0 w w
| Failing_more k w err w1 w' :
    fn w = (Throw err, w1) ->
    Failing fn delayMs k (sleep delayMs w1) w' ->
    Failing fn delayMs (S k) w w'.


(** * Properties *)

(** ** Strings and the age pattern *)

Lemma append_nil_r (s : string) : s ++ "" = s.
Proof. induction s as [|c s IH]; simpl; [reflexivity | now rewrite IH]. Qed.

Lemma append_assoc (a b c : string) : (a ++ b) ++ c = a ++ (b ++ c).
Proof. induction a as [|x a IH]; simpl; [reflexivity | now rewrite IH]. Qed.

Lemma span_split p s a b : span p s = (a, b) -> s = a ++ b /\ all_chars p a = true.
Proof.
  revert a b. induction s as [|c s IH]; simpl; intros a b E.
  - inversion E; subst. now split.
  - destruct (p c) eqn:Pc.
    + destruct (span p s) as [a' b'] eqn:Es. inversion E; subst.
      destruct (IH a' b eq_refl) as [-> Ha]. simpl. rewrite Pc, Ha. now split.
    + inversion E; subst. now split.
Qed.

Lemma span_stops p s a b : span p s = (a, b) -> stops p b = true.
Proof.
  revert a b. induction s as [|c s IH]; simpl; intros a b E.
  - now inversion E.
  - destruct (p c) eqn:Pc.
    + destruct (span p s) as [a' b'] eqn:Es. inversion E; subst. eauto.
    + inversion E; subst. simpl. now rewrite Pc.
Qed.

(** A run followed by something that stops it is what [span] takes. *)
Lemma span_app p a b :
  all_chars p a = true -> stops p b = true -> span p (a ++ b) = (a, b).
Proof.
  intros Ha Hb. induction a as [|c a IH]; simpl in *.
  - destruct b as [|c b]; [reflexivity|]. simpl in *.
    apply negb_true_iff in Hb. now rewrite Hb.
  - apply andb_true_iff in Ha as [Pc Ha]. now rewrite Pc, (IH Ha).
Qed.

Lemma space_not_digit c : is_space c = true -> is_digit c = false.
Proof. destruct c as [[] [] [] [] [] [] [] []]; vm_compute; congruence. Qed.

Lemma word_not_space c : is_word c = true -> is_space c = false.
Proof. destruct c as [[] [] [] [] [] [] [] []]; vm_compute; congruence. Qed.

Lemma stops_app_l p q a b :
  (forall c, p c = true -> q c = false) ->
  a <> "" -> all_chars p a = true -> stops q (a ++ b) = true.
Proof.
  intros Hpq Hne Ha. destruct a as [|c a]; [congruence|]. simpl in *.
  apply andb_true_iff in Ha as [Pc _]. now rewrite (Hpq c Pc).
Qed.

Lemma is_empty_false s : s <> "" -> is_empty s = false.
Proof. destruct s; [congruence | reflexivity]. Qed.

Lemma is_empty_false_inv s : is_empty s = false -> s <> "".
Proof. destruct s; [discriminate | congruence]. Qed.

(** The anchored match on a string that starts with the three runs. *)
Lemma match_at_runs ds ws wd post :
  ds <> "" -> all_chars is_digit ds = true ->
  ws <> "" -> all_chars is_space ws = true ->
  wd <> "" -> all_chars is_word wd = true ->
  stops is_word post = true ->
  match_at (ds ++ ws ++ wd ++ post) = Some (ds, wd).
Proof.
  intros Hd1 Hd2 Hs1 Hs2 Hw1 Hw2 Hp. unfold match_at.
  rewrite (span_app is_digit ds) by
    (auto; apply (stops_app_l is_space); auto using space_not_digit).
  rewrite (is_empty_false ds) by assumption.
  rewrite (span_app is_space ws) by
    (auto; apply (stops_app_l is_word); auto using word_not_space).
  rewrite (is_empty_false ws) by assumption.
  rewrite (span_app is_word wd) by assumption.
  now rewrite (is_empty_false wd).
Qed.

Lemma age_match_here s m : match_at s = Some m -> age_match s = Some m.
Proof. intros E. destruct s; cbn [age_match]; now rewrite E. Qed.

Lemma age_match_runs ds ws wd post :
  ds <> "" -> all_chars is_digit ds = true ->
  ws <> "" -> all_chars is_space ws = true ->
  wd <> "" -> all_chars is_word wd = true ->
  stops is_word post = true ->
  age_match (ds ++ ws ++ wd ++ post) = Some (ds, wd).
Proof.
  intros. now apply age_match_here, match_at_runs.
Qed.

(** What the anchored match returns is a match of the pattern. *)
Lemma match_at_sound s ds wd :
  match_at s = Some (ds, wd) ->
  exists ws post,
    s = ds ++ ws ++ wd ++ post /\
    ds <> "" /\ all_chars is_digit ds = true /\
    ws <> "" /\ all_chars is_space ws = true /\
    wd <> "" /\ all_chars is_word wd = true.
Proof.
  unfold match_at. intros E.
  destruct (span is_digit s) as [d r1] eqn:E1.
  destruct (is_empty d) eqn:N1; [discriminate|].
  destruct (span is_space r1) as [w r2] eqn:E2.
  destruct (is_empty w) eqn:N2; [discriminate|].
  destruct (span is_word r2) as [u r3] eqn:E3.
  destruct (is_empty u) eqn:N3; [discriminate|].
  inversion E; subst.
  apply span_split in E1 as [-> A1], E2 as [-> A2], E3 as [-> A3].
  exists w, r3. auto 10 using is_empty_false_inv.
Qed.

Lemma age_match_sound s ds wd :
  age_match s = Some (ds, wd) -> has_age_pattern s.
Proof.
  induction s as [|c s IH]; simpl.
  - discriminate.
  - destruct (match_at (String c s)) as [[d w]|] eqn:E.
    + intros Em. inversion Em; subst.
      destruct (match_at_sound _ _ _ E) as (ws & post & Es & ?).
      exists "", ds, ws, wd, post. simpl. tauto.
    + intros Em. destruct (IH Em) as (pre & d & ws & w & post & -> & ?).
      exists (String c pre), d, ws, w, post. simpl. tauto.
Qed.

(** A text without a match of the pattern gives [null]. *)
Lemma age_match_none s : ~ has_age_pattern s -> age_match s = None.
Proof.
  intros Hn. destruct (age_match s) as [[ds wd]|] eqn:E; [|reflexivity].
  destruct Hn. eauto using age_match_sound.
Qed.

Lemma span_app_more p a b :
  all_chars p a = true -> exists x y, span p (a ++ b) = (a ++ x, y).
Proof.
  intros Ha. induction a as [|c a IH]; simpl in *.
  - destruct (span p b) as [x y]. eauto.
  - apply andb_true_iff in Ha as [Pc Ha]. rewrite Pc.
    destruct (IH Ha) as (x & y & ->). eauto.
Qed.

(** A text that contains a match of the pattern gets one. *)
Lemma age_match_complete s : has_age_pattern s -> is_Some (age_match s).
Proof.
  intros (pre & ds & ws & wd & post & -> & Hd1 & Hd2 & Hs1 & Hs2 & Hw1 & Hw2).
  induction pre as [|c pre IH].
  - simpl. destruct (span_app_more is_word wd post Hw2) as (x & y & Ew).
    assert (match_at (ds ++ ws ++ wd ++ post) = Some (ds, wd ++ x)) as E.
    { unfold match_at.
      rewrite (span_app is_digit ds) by
        (auto; apply (stops_app_l is_space); auto using space_not_digit).
      rewrite (is_empty_false ds) by assumption.
      rewrite (span_app is_space ws) by
        (auto; apply (stops_app_l is_word); auto using word_not_space).
      rewrite (is_empty_false ws), Ew by assumption.
      destruct wd; [congruence | reflexivity]. }
    rewrite (age_match_here _ _ E). eauto.
  - cbn [append age_match].
    destruct (match_at (String c (pre ++ ds ++ ws ++ wd ++ post))); eauto.
Qed.

(** ** Decimal numerals *)

Lemma Number_acc_pos d acc :
  Number_acc (Z.pos acc) (NilEmpty.string_of_uint d)
  = Z.pos (Pos.of_uint_acc d acc).
Proof.
  revert acc. induction d; intros acc; simpl; try reflexivity;
    rewrite <- IHd; f_equal; unfold digit_value; simpl; lia.
Qed.

Lemma Number_acc_zero d :
  Number_acc 0 (NilEmpty.string_of_uint d) = Z.of_N (Pos.of_uint d).
Proof.
  induction d; simpl; try reflexivity; try assumption;
    unfold digit_value; simpl; apply Number_acc_pos.
Qed.

Lemma string_of_uint_digits d :
  all_chars is_digit (NilEmpty.string_of_uint d) = true.
Proof. induction d; simpl; auto. Qed.

Lemma String_of_N_unfold n :
  String_of_N n = NilEmpty.string_of_uint (N.to_uint n) /\ String_of_N n <> "".
Proof.
  unfold String_of_N, NilZero.string_of_uint.
  destruct n as [|p]; simpl; [split; [reflexivity | discriminate]|].
  pose proof (DecimalPos.Unsigned.to_uint_nonnil p) as Hnil.
  destruct (Pos.to_uint p) eqn:E; try congruence; simpl; split;
    try reflexivity; discriminate.
Qed.

(** [Number] reads back what printing an integer wrote. *)
Lemma Number_String_of_N n : Number_digits (String_of_N n) = Z.of_N n.
Proof.
  destruct (String_of_N_unfold n) as [-> _]. unfold Number_digits.
  rewrite Number_acc_zero. change Pos.of_uint with N.of_uint.
  now rewrite DecimalN.Unsigned.of_to.
Qed.

Lemma String_of_N_digits n : all_chars is_digit (String_of_N n) = true.
Proof.
  destruct (String_of_N_unfold n) as [-> _]. apply string_of_uint_digits.
Qed.

Lemma String_of_N_nonempty n : String_of_N n <> "".
Proof. apply String_of_N_unfold. Qed.

(** ** Unit words *)




(** ** Time normalization *)

Section Normalization.
Context `{JsRuntime}.

(** The hint is absent, or it is there and [Date.parse] gives NaN. *)
Lemma parseIsoTimestamp_no_hint (iso : option string) :
  (iso = None \/ exists hint, iso = Some hint /\ Date_parse hint = NaN) ->
  parseIsoTimestamp iso = None.
Proof.
  intros [-> | (hint & -> & E)]; [reflexivity|].
  unfold parseIsoTimestamp. destruct (is_empty hint); [reflexivity|].
  now rewrite E.
Qed.

(** The relative parser on a text that starts with a numeral, white space
    and a word. *)
Lemma parseRelative_runs ds ws wd post nowMs :
  ds <> "" -> all_chars is_digit ds = true ->
  ws <> "" -> all_chars is_space ws = true ->
  wd <> "" -> all_chars is_word wd = true ->
  stops is_word post = true ->
  parseRelativeAgeToTimestamp (ds ++ ws ++ wd ++ post) nowMs =
    let value := Number_digits ds in
    let unit := toLowerCase wd in
    if startsWith unit "second" then Some (nowMs - value * 1000)%Z
    else if startsWith unit "minute" then Some (nowMs - value * 60 * 1000)%Z
    else if startsWith unit "hour" then Some (nowMs - value * 60 * 60 * 1000)%Z
    else if startsWith unit "day"
         then Some (nowMs - value * 24 * 60 * 60 * 1000)%Z
    else None.
Proof.
  intros. unfold parseRelativeAgeToTimestamp.
  rewrite age_match_runs by assumption. cbv zeta.
  repeat destruct (startsWith _ _); reflexivity.
Qed.

Lemma parseRelative_numeral (N : N) (unit rest : string) nowMs :
  unit <> "" -> all_chars is_word unit = true -> stops is_word rest = true ->
  parseRelativeAgeToTimestamp (String_of_N N ++ " " ++ unit ++ rest) nowMs =
    let u := toLowerCase unit in
    if startsWith u "second" then Some (nowMs - Z.of_N N * 1000)%Z
    else if startsWith u "minute" then Some (nowMs - Z.of_N N * 60 * 1000)%Z
    else if startsWith u "hour" then Some (nowMs - Z.of_N N * 60 * 60 * 1000)%Z
    else if startsWith u "day"
         then Some (nowMs - Z.of_N N * 24 * 60 * 60 * 1000)%Z
    else None.
Proof.
  intros. rewrite parseRelative_runs;
    auto using String_of_N_nonempty, String_of_N_digits; try discriminate.
  now rewrite Number_String_of_N.
Qed.

End Normalization.




(** Claim C2, as stated, fails: an item can carry a hint that does not
    parse, and then the relative text decides.  Two items with the same
    hint, for which [Date.parse] gives NaN, and different age texts get
    different timestamps, none of them the value of the hint. *)
Lemma toTimestamp_unparsable_hint_falls_back :
  Date_parse "not a date" = NaN /\
  toTimestamp (mkArticle "Ask HN" "5 minutes ago" (Some "not a date")) 10000000
  = Num 9700000 /\
  toTimestamp (mkArticle "Ask HN" "2 hours ago" (Some "not a date")) 10000000
  = Num 2800000.
Proof. repeat split. Qed.

(** Claim C2, amended.  An item whose absolute time hint is present, not
    empty, and parses is normalized to the value parsed from the hint,
    whatever its relative-age text says. *)
Theorem toTimestamp_absolute_wins `{JsRuntime}
    (a : Article) (nowMs : Z) (hint : string) (t : Z) :
  ageISO a = Some hint -> hint <> "" -> Date_parse hint = Num t ->
  toTimestamp a nowMs = Num t /\
  forall text, toTimestamp (mkArticle (title a) text (ageISO a)) nowMs = Num t.
Proof.
  intros Ea Hne Ep.
  assert (parseIsoTimestamp (Some hint) = Some t) as E.
  { unfold parseIsoTimestamp. now rewrite (is_empty_false _ Hne), Ep. }
  split; [|intros text]; unfold toTimestamp; cbn [ageISO]; now rewrite Ea, E.
Qed.

Lemma toTimestamp_absolute_wins_witness :
  toTimestamp (mkArticle "Launch" "3 minutes ago" (Some "2025-01-05T13:45:00"))
              1736090000000
  = Num 1736084700000.
Proof.
  refine (proj1 (toTimestamp_absolute_wins
            (mkArticle "Launch" "3 minutes ago" (Some "2025-01-05T13:45:00"))
            1736090000000 "2025-01-05T13:45:00" 1736084700000 _ _ _)).
  - reflexivity.
  - discriminate.
  - reflexivity.
Defined.

(** Claim C8.  An item whose absolute hint is absent or does not parse is
    normalized to the unparsable marker (NaN) when its age text is empty,
    or contains no "integer word" match at all, or reads as an integer
    followed by a word that is none of the known units (weeks, months,
    years, ...).  [toTimestamp] is a total function: it returns on every
    input, and no branch of it throws. *)
Theorem toTimestamp_unparsable `{JsRuntime} (a : Article) (nowMs : Z) :
  (ageISO a = None \/ exists hint, ageISO a = Some hint /\ Date_parse hint = NaN) ->
  (ageText a = ""
   \/ ~ has_age_pattern (ageText a)
   \/ exists (N : N) (unit rest : string),
        ageText a = String_of_N N ++ " " ++ unit ++ rest /\
        unit <> "" /\ all_chars is_word unit = true /\
        stops is_word rest = true /\
        known_unit (toLowerCase unit) = false) ->
  toTimestamp a nowMs = NaN.
Proof.
  intros Hiso Htext. unfold toTimestamp.
  rewrite (parseIsoTimestamp_no_hint _ Hiso).
  destruct Htext as [E | [Hn | (N & unit & rest & E & Hne & Hw & Hr & Hk)]].
  - now rewrite E.
  - unfold parseRelativeAgeToTimestamp. now rewrite (age_match_none _ Hn).
  - rewrite E, parseRelative_numeral by assumption. cbv zeta.
    unfold known_unit in Hk.
    repeat (apply orb_false_iff in Hk as [Hk ?]).
    now repeat match goal with E : startsWith _ _ = false |- _ => rewrite E; clear E end.
Qed.

Lemma toTimestamp_unparsable_witness :
  toTimestamp (mkArticle "Old story" "3 months ago" None) 1736084700000 = NaN.
Proof.
  apply (toTimestamp_unparsable (mkArticle "Old story" "3 months ago" None)).
  - left. reflexivity.
  - right. right. exists 3%N, "months", " ago". repeat split. discriminate.
Defined.

Example toTimestamp_weeks_years_empty :
  toTimestamp (mkArticle "a" "2 weeks ago" None) 1736084700000 = NaN /\
  toTimestamp (mkArticle "b" "1 year ago" (Some "")) 1736084700000 = NaN /\
  toTimestamp (mkArticle "c" "" None) 1736084700000 = NaN /\
  toTimestamp (mkArticle "d" "on Jan 5, 2025" None) 1736084700000 = NaN /\
  toTimestamp (mkArticle "e" "7minutes ago" None) 1736084700000 = NaN.
Proof. repeat split. Qed.

(** ** The two checks *)

Lemma eqb_length_nil {A} (l : list A) : Nat.eqb (length l) 0 = true <-> l = [].
Proof. destruct l; simpl; split; congruence. Qed.

Lemma fold_push (details : list Detail.t) (acc : list string) :
  fold_left (fun problems d =>
               if Number_isNaN (Detail.timestamp d)
               then (problems ++ [unparsableProblem d])%list
               else problems)
            details acc
  = (acc ++ map unparsableProblem
              (List.filter (fun d => Number_isNaN (Detail.timestamp d)) details))%list.
Proof.
  revert acc. induction details as [|d details IH]; intros acc; simpl.
  - now rewrite app_nil_r.
  - rewrite IH. destruct (Number_isNaN (Detail.timestamp d)); simpl;
      [now rewrite <- app_assoc | reflexivity].
Qed.

(** The parse check reports the unparsable items, all of them, in order. *)
Lemma checkTimestampsParsable_problems (details : list Detail.t) :
  Check.problems (checkTimestampsParsable details)
  = map unparsableProblem
        (List.filter (fun d => Number_isNaN (Detail.timestamp d)) details).
Proof. unfold checkTimestampsParsable. cbn [Check.problems]. apply fold_push. Qed.

Lemma num_lt_not_NaN x y :
  num_lt x y = true -> Number_isNaN x || Number_isNaN y = false.
Proof. destruct x, y; simpl; congruence. Qed.

(** One round of the sort loop, the two guards of the body folded into the
    comparison (which is false on NaN). *)
Lemma sortedLoop_round details fuel i prev curr :
  i < length details ->
  details !! (i - 1) = Some prev -> details !! i = Some curr ->
  sortedLoop details (S fuel) i =
    if num_lt (Detail.timestamp prev) (Detail.timestamp curr)
    then ([i], [orderingProblem prev curr])
    else let '(seen, problems) := sortedLoop details fuel (S i) in
         (i :: seen, problems).
Proof.
  intros Hi Ep Ec. cbn [sortedLoop].
  apply Nat.ltb_lt in Hi. rewrite Hi, Ep, Ec.
  destruct (num_lt _ _) eqn:Elt.
  - now rewrite (num_lt_not_NaN _ _ Elt).
  - destruct (Number_isNaN _ || Number_isNaN _); reflexivity.
Qed.

Lemma adjacent_lookup (details : list Detail.t) i :
  1 <= i -> i < length details ->
  exists prev curr, details !! (i - 1) = Some prev /\ details !! i = Some curr.
Proof.
  intros H1 Hi.
  destruct (lookup_lt_is_Some_2 details (i - 1)) as [prev Ep]; [lia|].
  destruct (lookup_lt_is_Some_2 details i) as [curr Ec]; [lia|].
  eauto.
Qed.

(** Without an inversion from [i] on, the loop looks at every remaining
    pair and reports nothing. *)
Lemma sortedLoop_clean details fuel i :
  1 <= i -> length details <= i + fuel ->
  (forall j, i <= j -> inversion_at details j = false) ->
  sortedLoop details fuel i = (seq i (length details - i), []).
Proof.
  revert i. induction fuel as [|fuel IH]; intros i H1 Hfuel Hno.
  - replace (length details - i) with 0 by lia. reflexivity.
  - destruct (Nat.lt_ge_cases i (length details)) as [Hi|Hi].
    + destruct (adjacent_lookup details i H1 Hi) as (prev & curr & Ep & Ec).
      rewrite (sortedLoop_round _ _ _ _ _ Hi Ep Ec).
      pose proof (Hno i (Nat.le_refl i)) as Hinv.
      unfold inversion_at in Hinv. rewrite Ep, Ec in Hinv. rewrite Hinv.
      rewrite IH by (try lia; intros j Hj; apply Hno; lia).
      replace (length details - i) with (S (length details - S i)) by lia.
      reflexivity.
    + cbn [sortedLoop]. apply Nat.ltb_ge in Hi as Hi'. rewrite Hi'.
      replace (length details - i) with 0 by lia. reflexivity.
Qed.

(** With a first inversion at [k], the loop looks at the pairs up to [k],
    reports that inversion, and stops. *)
Lemma sortedLoop_first details fuel i k prev curr :
  1 <= i -> i <= k -> length details <= i + fuel ->
  details !! (k - 1) = Some prev -> details !! k = Some curr ->
  num_lt (Detail.timestamp prev) (Detail.timestamp curr) = true ->
  (forall j, i <= j -> j < k -> inversion_at details j = false) ->
  sortedLoop details fuel i = (seq i (S k - i), [orderingProblem prev curr]).
Proof.
  revert i. induction fuel as [|fuel IH]; intros i H1 Hik Hfuel Ep Ec Hlt Hno.
  - apply lookup_lt_Some in Ec. lia.
  - assert (i < length details) as Hi by (apply lookup_lt_Some in Ec; lia).
    destruct (adjacent_lookup details i H1 Hi) as (p & c & Ep' & Ec').
    rewrite (sortedLoop_round _ _ _ _ _ Hi Ep' Ec').
    destruct (Nat.eq_dec i k) as [->|Hne].
    + rewrite Ep in Ep'. rewrite Ec in Ec'. inversion Ep'; inversion Ec'; subst.
      rewrite Hlt. replace (S k - k) with 1 by lia. reflexivity.
    + pose proof (Hno i (Nat.le_refl i) ltac:(lia)) as Hinv.
      unfold inversion_at in Hinv. rewrite Ep', Ec' in Hinv. rewrite Hinv.
      rewrite (IH (S i)) by (try lia; try assumption; intros j ? ?; apply Hno; lia).
      replace (S k - i) with (S (S k - S i)) by lia. reflexivity.
Qed.

Lemma enrich_lookup `{JsRuntime} (articles : list Article) (nowMs : Z) i :
  enrichArticlesWithTimestamps articles nowMs !! i
  = (fun a => Detail.mk (Z.of_nat i + 1) (title a) (ageText a) (ageISO a)
                        (toTimestamp a nowMs)) <$> articles !! i.
Proof. unfold enrichArticlesWithTimestamps. apply list_lookup_imap. Qed.

(** ** The validator *)

(** Claim C3.  When the items at positions [k] and [k+1] form an inversion
    (both instants parsable, the first strictly smaller) and no adjacent
    pair before them does -- in particular when it is the only inversion of
    the sequence -- the validator reports exactly one ordering problem; it
    names positions [k] and [k+1] with both titles and age texts; the pairs
    looked at are those up to [(k, k+1)] and none after it; pairs with an
    unparsable side before it are among those looked at and do not end the
    scan. *)
Theorem first_inversion_reported `{JsRuntime}
    (articles : list Article) (nowMs : Z) (k : nat) (a b : Article) :
  let details := enrichArticlesWithTimestamps articles nowMs in
  1 <= k ->
  articles !! (k - 1) = Some a -> articles !! k = Some b ->
  num_lt (toTimestamp a nowMs) (toTimestamp b nowMs) = true ->
  (forall j, j < k -> inversion_at details j = false) ->
  let problem :=
    "Ordering issue between #" ++ String_of_Z (Z.of_nat k) ++ " and #" ++
    String_of_Z (Z.of_nat k + 1) ++ ": " ++
    dquote ++ title a ++ dquote ++ " (" ++ ageText a ++ ") appears before " ++
    dquote ++ title b ++ dquote ++ " (" ++ ageText b ++
    "), but has an *older* timestamp." in
  checkSortedNewestToOldest details = Check.mk false [problem] /\
  pairsEvaluated details = seq 1 k /\
  Validation.problems (validateArticles articles nowMs)
  = (Check.problems (checkTimestampsParsable details) ++ [problem])%list /\
  Validation.isSorted (validateArticles articles nowMs) = false.
Proof.
  intros details Hk Ea Eb Hlt Hno problem.
  pose (prev := Detail.mk (Z.of_nat (k - 1) + 1) (title a) (ageText a) (ageISO a)
                          (toTimestamp a nowMs)).
  pose (curr := Detail.mk (Z.of_nat k + 1) (title b) (ageText b) (ageISO b)
                          (toTimestamp b nowMs)).
  assert (details !! (k - 1) = Some prev) as Ep
    by (unfold details; rewrite enrich_lookup, Ea; reflexivity).
  assert (details !! k = Some curr) as Ec
    by (unfold details; rewrite enrich_lookup, Eb; reflexivity).
  assert (orderingProblem prev curr = problem) as Emsg.
  { unfold orderingProblem, problem, prev, curr. cbn [Detail.index Detail.title Detail.ageText].
    replace (Z.of_nat (k - 1) + 1)%Z with (Z.of_nat k) by lia. reflexivity. }
  assert (sortedLoop details (length details) 1 = (seq 1 k, [problem])) as Eloop.
  { rewrite (sortedLoop_first details (length details) 1 k prev curr);
      auto; try lia.
    replace (S k - 1) with k by lia. now rewrite Emsg. }
  assert (checkSortedNewestToOldest details = Check.mk false [problem]) as Esort
    by (unfold checkSortedNewestToOldest; now rewrite Eloop).
  repeat split.
  - exact Esort.
  - unfold pairsEvaluated. now rewrite Eloop.
  - unfold validateArticles. fold details. now rewrite Esort.
  - unfold validateArticles. fold details. rewrite Esort. apply andb_false_r.
Qed.

Lemma first_inversion_reported_witness :
  let articles := [mkArticle "A" "1 minute ago" None;
                   mkArticle "X" "soon" None;
                   mkArticle "B" "3 minutes ago" None;
                   mkArticle "C" "2 minutes ago" None;
                   mkArticle "D" "1 minute ago" None] in
  Validation.problems (validateArticles articles 1736084700000)
  = ["Unparsable timestamp for article #2: " ++ dquote ++ "X" ++ dquote ++
     " (soon, ISO: none)";
     "Ordering issue between #3 and #4: " ++ dquote ++ "B" ++ dquote ++
     " (3 minutes ago) appears before " ++ dquote ++ "C" ++ dquote ++
     " (2 minutes ago), but has an *older* timestamp."] /\
  pairsEvaluated (enrichArticlesWithTimestamps articles 1736084700000)
  = [1; 2; 3].
Proof.
  intros articles.
  destruct (first_inversion_reported articles 1736084700000 3
              (mkArticle "B" "3 minutes ago" None)
              (mkArticle "C" "2 minutes ago" None))
    as (_ & Eseen & Eproblems & _).
  - lia.
  - reflexivity.
  - reflexivity.
  - reflexivity.
  - intros [|[|[|j]]] Hj; [reflexivity | reflexivity | reflexivity | lia].
  - split; [exact Eproblems | exact Eseen].
Defined.

(** The two fields of the validator's result in terms of the two checks. *)
Lemma validateArticles_fields `{JsRuntime} (articles : list Article) (nowMs : Z) :
  let details := enrichArticlesWithTimestamps articles nowMs in
  Validation.problems (validateArticles articles nowMs)
  = (Check.problems (checkTimestampsParsable details)
     ++ Check.problems (checkSortedNewestToOldest details))%list /\
  (Validation.isSorted (validateArticles articles nowMs) = true <->
   Check.problems (checkTimestampsParsable details) = [] /\
   Check.problems (checkSortedNewestToOldest details) = []).
Proof.
  intros details. split; [reflexivity|].
  unfold validateArticles. fold details. cbn [Validation.isSorted].
  rewrite andb_true_iff.
  unfold checkTimestampsParsable at 1, checkSortedNewestToOldest at 1.
  cbn [Check.ok]. rewrite !eqb_length_nil. reflexivity.
Qed.

(** Claim C4.  The validator runs both checks whatever the other finds: its
    problem list is the problems of the parse check, one for each unparsable
    item in order, followed by those of the sort check, and [isSorted] is
    true exactly when both lists are empty. *)
Theorem validateArticles_both_checks `{JsRuntime}
    (articles : list Article) (nowMs : Z) :
  let details := enrichArticlesWithTimestamps articles nowMs in
  let parseCheck := checkTimestampsParsable details in
  let sortCheck := checkSortedNewestToOldest details in
  Validation.details (validateArticles articles nowMs) = details /\
  Validation.problems (validateArticles articles nowMs)
  = (Check.problems parseCheck ++ Check.problems sortCheck)%list /\
  Check.problems parseCheck
  = map unparsableProblem
        (List.filter (fun d => Number_isNaN (Detail.timestamp d)) details) /\
  (Validation.isSorted (validateArticles articles nowMs) = true <->
   Check.problems parseCheck = [] /\ Check.problems sortCheck = []).
Proof.
  intros details parseCheck sortCheck.
  split; [reflexivity|]. split; [reflexivity|].
  split; [apply checkTimestampsParsable_problems|].
  unfold validateArticles. fold details. cbn [Validation.isSorted].
  fold parseCheck sortCheck. rewrite andb_true_iff.
  unfold parseCheck at 1, sortCheck at 1.
  unfold checkTimestampsParsable at 1, checkSortedNewestToOldest at 1.
  cbn [Check.ok]. rewrite !eqb_length_nil. reflexivity.
Qed.

(** The two checks side by side: an unparsable item and an inversion in one
    list give one problem each, the parse problem first. *)
Example validateArticles_both_kinds :
  Validation.problems
    (validateArticles [mkArticle "A" "1 minute ago" None;
                       mkArticle "B" "3 minutes ago" None;
                       mkArticle "C" "2 minutes ago" None;
                       mkArticle "D" "3 months ago" None] 1736084700000)
  = ["Unparsable timestamp for article #4: " ++ dquote ++ "D" ++ dquote ++
     " (3 months ago, ISO: none)";
     "Ordering issue between #2 and #3: " ++ dquote ++ "B" ++ dquote ++
     " (3 minutes ago) appears before " ++ dquote ++ "C" ++ dquote ++
     " (2 minutes ago), but has an *older* timestamp."].
Proof. reflexivity. Qed.

Lemma filter_all_false {A} (f : A -> bool) (l : list A) :
  (forall i x, l !! i = Some x -> f x = false) -> List.filter f l = [].
Proof.
  induction l as [|x l IH]; intros Hl; simpl; [reflexivity|].
  rewrite (Hl 0 x eq_refl). apply IH. intros i y E. apply (Hl (S i) y E).
Qed.

(** Claim C5.  When every instant is parsable and the instants do not
    increase down the list (equal neighbours allowed), the validator passes
    and reports no problem. *)
Theorem validateArticles_sorted_passes `{JsRuntime}
    (articles : list Article) (nowMs : Z) :
  let details := enrichArticlesWithTimestamps articles nowMs in
  (forall i d, details !! i = Some d -> exists t, Detail.timestamp d = Num t) ->
  (forall i prev curr x y,
     details !! i = Some prev -> details !! (S i) = Some curr ->
     Detail.timestamp prev = Num x -> Detail.timestamp curr = Num y ->
     (y <= x)%Z) ->
  Validation.isSorted (validateArticles articles nowMs) = true /\
  Validation.problems (validateArticles articles nowMs) = [].
Proof.
  intros details Hparsed Hsorted.
  assert (Check.problems (checkTimestampsParsable details) = []) as Eparse.
  { rewrite checkTimestampsParsable_problems.
    rewrite filter_all_false; [reflexivity|]. intros i d Ed.
    destruct (Hparsed i d Ed) as [t Et]. now rewrite Et. }
  assert (forall j, 1 <= j -> inversion_at details j = false) as Hno.
  { intros j Hj. unfold inversion_at.
    destruct (details !! (j - 1)) as [prev|] eqn:Ep; [|reflexivity].
    destruct (details !! j) as [curr|] eqn:Ec; [|reflexivity].
    destruct (Hparsed _ _ Ep) as [x Ex], (Hparsed _ _ Ec) as [y Ey].
    rewrite Ex, Ey. simpl. apply Z.ltb_ge.
    apply (Hsorted (j - 1) prev curr); auto.
    now replace (S (j - 1)) with j by lia. }
  assert (Check.problems (checkSortedNewestToOldest details) = []) as Esort.
  { unfold checkSortedNewestToOldest. cbn [Check.problems].
    now rewrite sortedLoop_clean by (auto; lia). }
  destruct (validateArticles_fields articles nowMs) as (Eall & Hok).
  fold details in Eall, Hok. split.
  - apply Hok. now split.
  - now rewrite Eall, Eparse, Esort.
Qed.

Lemma validateArticles_sorted_passes_witness :
  let articles := [mkArticle "A" "1 minute ago" None;
                   mkArticle "B" "1 minute ago" (Some "");
                   mkArticle "C" "2 hours ago" None;
                   mkArticle "D" "on old days" (Some "2025-01-05T13:45:00")] in
  Validation.isSorted (validateArticles articles 1736100000000) = true /\
  Validation.problems (validateArticles articles 1736100000000) = [].
Proof.
  intros articles.
  apply (validateArticles_sorted_passes articles 1736100000000).
  - intros [|[|[|[|i]]]] d E; vm_compute in E; inversion E; subst; cbn; eauto.
  - intros [|[|[|[|i]]]] prev curr x y Ep Ec Ex Ey;
      vm_compute in Ep, Ec; inversion Ep; inversion Ec; subst;
      vm_compute in Ex, Ey; inversion Ex; inversion Ey; subst; lia.
Defined.

(** ** The collector *)

Section CollectorFacts.
Context {W : Type} `{Page W}.

(** Two attempts, both failing: one sleep in between, then the final
    throw, which carries the text of the last error. *)
Lemma withRetry_two_failures {A} (fn : Async W A) delayMs label w e1 w1 e2 w2 :
  fn w = (Throw e1, w1) ->
  fn (sleep delayMs w1) = (Throw e2, w2) ->
  withRetry fn 2 delayMs label w
  = (Throw (Error ("[Retry] " ++ label ++ " failed after 2 attempts: " ++
                   exn_to_string e2)), w2).
Proof.
  intros E1 E2. unfold withRetry. cbn [retryLoop]. rewrite E1.
  cbn [Nat.ltb Nat.leb]. rewrite E2. reflexivity.
Qed.

Lemma withRetry_first_ok {A} (fn : Async W A) attempts delayMs label w a w1 :
  fn w = (Ok a, w1) ->
  withRetry fn (S attempts) delayMs label w = (Ok a, w1).
Proof. intros E. unfold withRetry. cbn [retryLoop]. now rewrite E. Qed.

Lemma withRetry_second_ok {A} (fn : Async W A) delayMs label w e1 w1 a w2 :
  fn w = (Throw e1, w1) ->
  fn (sleep delayMs w1) = (Ok a, w2) ->
  withRetry fn 2 delayMs label w = (Ok a, w2).
Proof.
  intros E1 E2. unfold withRetry. cbn [retryLoop]. rewrite E1.
  cbn [Nat.ltb Nat.leb]. now rewrite E2.
Qed.

(** A round whose page has no articles leaves the loop with the
    accumulator as it was. *)
Lemma loopRound_empty n collected pagesVisited w w1 :
  length collected < n -> pagesVisited < MAX_PAGES_TO_VISIT ->
  scrapeArticlesOnPage w = (Ok [], w1) ->
  loopRound n collected pagesVisited w
  = (Ok (Break (mkLoopEnd collected (S pagesVisited) EmptyPage)), w1).
Proof.
  intros Hn Hp Es. unfold loopRound.
  apply Nat.ltb_lt in Hn. rewrite Hn.
  assert ((MAX_PAGES_TO_VISIT <? S pagesVisited)%nat = false) as ->
    by (apply Nat.ltb_ge; lia).
  unfold bind. now rewrite Es.
Qed.

(** A round whose navigation fails after its retries leaves the loop
    with the page's articles appended. *)
Lemma loopRound_navigation_failed n collected pagesVisited w items w1 e w3 :
  length collected < n -> pagesVisited < MAX_PAGES_TO_VISIT ->
  scrapeArticlesOnPage w = (Ok items, w1) -> items <> [] ->
  length (collected ++ items) < n ->
  withRetry navigateToNextPage 2 2000 "pagination navigation" w1
  = (Throw e, w3) ->
  loopRound n collected pagesVisited w
  = (Ok (Break (mkLoopEnd (collected ++ items) (S pagesVisited)
                          NavigationFailed)), w3).
Proof.
  intros Hn Hp Es Hne Hshort Enav. unfold loopRound.
  apply Nat.ltb_lt in Hn. rewrite Hn.
  assert ((MAX_PAGES_TO_VISIT <? S pagesVisited)%nat = false) as ->
    by (apply Nat.ltb_ge; lia).
  unfold bind at 1. rewrite Es.
  assert ((length items =? 0)%nat = false) as ->
    by (destruct items; [congruence | reflexivity]).
  assert ((n <=? length (collected ++ items))%nat = false) as ->
    by (apply Nat.leb_gt; exact Hshort).
  unfold bind, try. now rewrite Enav.
Qed.

(** What a round that goes on tells about the state. *)
Lemma loopRound_continue n collected pagesVisited w collected' pagesVisited' w' :
  loopRound n collected pagesVisited w
  = (Ok (Continue collected' pagesVisited'), w') ->
  pagesVisited' = S pagesVisited /\ pagesVisited' <= MAX_PAGES_TO_VISIT /\
  length collected' < n.
Proof.
  unfold loopRound, bind, try, ret.
  destruct (length collected <? n)%nat; [|discriminate].
  destruct (MAX_PAGES_TO_VISIT <? S pagesVisited)%nat eqn:Ep; [discriminate|].
  destruct (scrapeArticlesOnPage w) as [[items|e] w1]; [|discriminate].
  destruct (length items =? 0)%nat; [discriminate|].
  destruct (n <=? length (collected ++ items))%nat eqn:En; [discriminate|].
  destruct (withRetry _ _ _ _ w1) as [[[]|e] w3]; [|discriminate].
  intros E. inversion E; subst.
  apply Nat.ltb_ge in Ep. apply Nat.leb_gt in En. auto.
Qed.

(** The state a round leaves the loop in has reached the target exactly
    when the cause says so. *)
Lemma loopRound_break n acc pagesVisited w final w' :
  loopRound n acc pagesVisited w = (Ok (Break final), w') ->
  (cause final = TargetReached /\ n <= length (collected final))
  \/ (cause final <> TargetReached /\ length (collected final) < n).
Proof.
  unfold loopRound, bind, try, ret.
  destruct (length acc <? n)%nat eqn:Ec.
  2:{ intros E. inversion E; subst. apply Nat.ltb_ge in Ec. now left. }
  apply Nat.ltb_lt in Ec.
  destruct (MAX_PAGES_TO_VISIT <? S pagesVisited)%nat.
  { intros E. inversion E; subst. right. now split. }
  destruct (scrapeArticlesOnPage w) as [[items|e] w1]; [|discriminate].
  destruct (length items =? 0)%nat.
  { intros E. inversion E; subst. right. now split. }
  destruct (n <=? length (acc ++ items))%nat eqn:En.
  { intros E. inversion E; subst. apply Nat.leb_le in En. now left. }
  apply Nat.leb_gt in En.
  destruct (withRetry _ _ _ _ w1) as [[[]|e] w3]; [discriminate|].
  intros E. inversion E; subst. right. now split.
Qed.

End CollectorFacts.

Section CollectorRuns.
Context {W : Type} `{Page W}.

Lemma whileLoop_round fuel n acc pagesVisited w :
  whileLoop (S fuel) n acc pagesVisited w =
    match loopRound n acc pagesVisited w with
    | (Ok (Break final), w') => (Ok (Some final), w')
    | (Ok (Continue acc' pagesVisited'), w') =>
        whileLoop fuel n acc' pagesVisited' w'
    | (Throw e, w') => (Throw e, w')
    end.
Proof.
  cbn [whileLoop]. unfold bind.
  destruct (loopRound n acc pagesVisited w) as [[[]|] ?]; reflexivity.
Qed.

(** The loop is left, with fuel to spare, as long as the fuel covers the
    pages still allowed: it throws (only the page can make it) or it ends
    in a state that has reached the target exactly when its cause says so. *)
Lemma whileLoop_ends fuel n acc pagesVisited w :
  1 <= fuel -> MAX_PAGES_TO_VISIT < pagesVisited + fuel ->
  (exists e w', whileLoop fuel n acc pagesVisited w = (Throw e, w'))
  \/ (exists final w',
        whileLoop fuel n acc pagesVisited w = (Ok (Some final), w') /\
        ((cause final = TargetReached /\ n <= length (collected final))
         \/ (cause final <> TargetReached /\ length (collected final) < n))).
Proof.
  revert acc pagesVisited w.
  induction fuel as [|fuel IH]; intros acc pagesVisited w H1 Hfuel; [lia|].
  rewrite whileLoop_round.
  destruct (loopRound n acc pagesVisited w) as [[[acc' pv'|final]|e] w'] eqn:E.
  - apply loopRound_continue in E as (-> & Hp & _). apply IH; lia.
  - right. exists final, w'. split; [reflexivity|].
    eapply loopRound_break, E.
  - left. eauto.
Qed.

(** A run that comes to the head of the loop has the rest of the loop
    still to do, with the fuel that is left. *)
Lemma whileLoop_reaches n w0 acc pagesVisited w :
  Reaches n w0 acc pagesVisited w ->
  pagesVisited <= MAX_PAGES_TO_VISIT /\
  collectLoop n w0
  = whileLoop (S MAX_PAGES_TO_VISIT - pagesVisited) n acc pagesVisited w.
Proof.
  induction 1 as [|acc pv w acc' pv' w' _ [Hp IH] E].
  - split; [lia | reflexivity].
  - pose proof (loopRound_continue _ _ _ _ _ _ _ E) as (-> & Hp' & _).
    split; [exact Hp'|]. rewrite IH.
    replace (S MAX_PAGES_TO_VISIT - pv) with (S (S MAX_PAGES_TO_VISIT - S pv))
      by lia.
    now rewrite whileLoop_round, E.
Qed.

Lemma getFirstNArticles_of_loop n w0 final w' :
  collectLoop n w0 = (Ok (Some final), w') ->
  getFirstNArticles n w0 = (Ok (Some (take n (collected final))), w').
Proof. intros E. unfold getFirstNArticles, bind. now rewrite E. Qed.

(** A run whose round leaves the loop returns the first [n] articles of
    that round's accumulator. *)
Lemma getFirstNArticles_break n w0 acc pagesVisited w final w' :
  Reaches n w0 acc pagesVisited w ->
  loopRound n acc pagesVisited w = (Ok (Break final), w') ->
  getFirstNArticles n w0 = (Ok (Some (take n (collected final))), w').
Proof.
  intros R E. apply getFirstNArticles_of_loop.
  destruct (whileLoop_reaches _ _ _ _ _ R) as [Hp ->].
  replace (S MAX_PAGES_TO_VISIT - pagesVisited)
    with (S (MAX_PAGES_TO_VISIT - pagesVisited)) by lia.
  now rewrite whileLoop_round, E.
Qed.

(** When the row extraction of the page does not throw, nothing in the
    collector does: a time-out of [waitForSelector] is an empty page, and
    whatever navigation throws is caught around [withRetry]. *)
Lemma scrapeArticlesOnPage_ok w :
  (forall w1, exists rows w2, evalRows w1 = (Ok rows, w2)) ->
  exists items w', scrapeArticlesOnPage w = (Ok items, w').
Proof.
  intros Hrows. unfold scrapeArticlesOnPage, bind, try, ret.
  destruct (waitForSelector w) as [[[]|e] w1]; [apply Hrows | eauto].
Qed.

Lemma loopRound_ok n acc pagesVisited w :
  (forall w1, exists rows w2, evalRows w1 = (Ok rows, w2)) ->
  exists step w', loopRound n acc pagesVisited w = (Ok step, w').
Proof.
  intros Hrows. unfold loopRound, bind, try, ret.
  destruct (length acc <? n)%nat; [|eauto].
  destruct (MAX_PAGES_TO_VISIT <? S pagesVisited)%nat; [eauto|].
  destruct (scrapeArticlesOnPage_ok w Hrows) as (items & w1 & ->).
  destruct (length items =? 0)%nat; [eauto|].
  destruct (n <=? length (acc ++ items))%nat; [eauto|].
  destruct (withRetry _ _ _ _ w1) as [[[]|e] w3]; eauto.
Qed.

Lemma whileLoop_ok fuel n acc pagesVisited w :
  (forall w1, exists rows w2, evalRows w1 = (Ok rows, w2)) ->
  exists r w', whileLoop fuel n acc pagesVisited w = (Ok r, w').
Proof.
  intros Hrows. revert acc pagesVisited w.
  induction fuel as [|fuel IH]; intros acc pagesVisited w.
  - cbn. unfold ret. eauto.
  - rewrite whileLoop_round.
    destruct (loopRound_ok n acc pagesVisited w Hrows) as ([acc' pv'|final] & w' & ->);
      eauto.
Qed.

End CollectorRuns.

(** Claim C6.  Every run of the collector that returns gives the first [n]
    items of what the loop accumulated: never more than [n] items, exactly
    [n] when [n] or more were gathered, and the whole accumulator, of fewer
    than [n] items, when the loop was left because a page was empty,
    navigation failed or the page limit was passed.  The loop is always left
    within its fuel.  Only the page's own row extraction can make the run
    throw: when that does not throw, the run returns. *)
Theorem getFirstNArticles_at_most_n {W : Type} `{Page W} (n : nat) (w : W) :
  ((exists e w', getFirstNArticles n w = (Throw e, w') /\
                 collectLoop n w = (Throw e, w'))
   \/ (exists final w',
         collectLoop n w = (Ok (Some final), w') /\
         getFirstNArticles n w = (Ok (Some (take n (collected final))), w') /\
         length (take n (collected final)) <= n /\
         (n <= length (collected final) ->
          length (take n (collected final)) = n) /\
         (cause final = TargetReached ->
          length (take n (collected final)) = n) /\
         (cause final <> TargetReached ->
          take n (collected final) = collected final /\
          length (collected final) < n))) /\
  ((forall w1, exists rows w2, evalRows w1 = (Ok rows, w2)) ->
   exists items w',
     getFirstNArticles n w = (Ok (Some items), w') /\ length items <= n).
Proof.
  assert (forall final w',
            collectLoop n w = (Ok (Some final), w') ->
            getFirstNArticles n w = (Ok (Some (take n (collected final))), w') /\
            length (take n (collected final)) <= n) as Hret.
  { intros final w' E. split; [now apply getFirstNArticles_of_loop|].
    rewrite length_take. lia. }
  destruct (whileLoop_ends (S MAX_PAGES_TO_VISIT) n [] 0 w)
    as [(e & w' & E) | (final & w' & E & Hcause)];
    [lia | unfold MAX_PAGES_TO_VISIT; lia | |]; split.
  - left. exists e, w'. split; [|exact E].
    unfold getFirstNArticles, bind, collectLoop. now rewrite E.
  - intros Hrows.
    destruct (whileLoop_ok (S MAX_PAGES_TO_VISIT) n [] 0 w Hrows) as (r & w1 & E').
    rewrite E in E'. discriminate.
  - right. exists final, w'. split; [exact E|].
    destruct (Hret final w' E) as [Eret Hle].
    split; [exact Eret|]. split; [exact Hle|].
    split; [intros Hn; now apply length_take_le|].
    split.
    + intros Ec. destruct Hcause as [[_ Hn] | [Hc _]]; [|congruence].
      now apply length_take_le.
    + intros Hc. destruct Hcause as [[Ec _] | [_ Hn]]; [congruence|].
      split; [apply take_ge; lia | exact Hn].
  - intros _. exists (take n (collected final)), w'. now apply Hret.
Qed.

(** The fake page of the specification: four items a page for three pages,
    then an empty page.  A target of 10 is reached on the third page and
    the 12 gathered items are cut to 10; a target of 20 is not reached and
    the 12 items come back. *)
Example getFirstNArticles_four_by_three :
  fst (getFirstNArticles 10 Script.four_by_three) = Ok (Some (Script.stories 1 10)) /\
  fst (collectLoop 10 Script.four_by_three)
  = Ok (Some (mkLoopEnd (Script.stories 1 12) 3 TargetReached)) /\
  fst (getFirstNArticles 20 Script.four_by_three) = Ok (Some (Script.stories 1 12)) /\
  fst (collectLoop 20 Script.four_by_three)
  = Ok (Some (mkLoopEnd (Script.stories 1 12) 4 EmptyPage)).
Proof. repeat split. Qed.

(** Claim C7.  Take a run that comes to the head of the loop still short of
    the target and within the page limit.  If the page then yields articles
    that leave it short and the page advance fails on both attempts of its
    retry, the run returns the accumulator with that page's articles, and
    does not throw.  If the page yields no article, the run returns the
    accumulator as it was. *)
Theorem getFirstNArticles_stops_gracefully {W : Type} `{Page W}
    (n : nat) (w0 : W) (acc : list Article) (pagesVisited : nat) (w : W) :
  Reaches n w0 acc pagesVisited w ->
  length acc < n -> pagesVisited < MAX_PAGES_TO_VISIT ->
  (forall items w1 e1 w2 e2 w3,
     scrapeArticlesOnPage w = (Ok items, w1) -> items <> [] ->
     length (acc ++ items) < n ->
     navigateToNextPage w1 = (Throw e1, w2) ->
     navigateToNextPage (sleep 2000 w2) = (Throw e2, w3) ->
     getFirstNArticles n w0 = (Ok (Some (acc ++ items)%list), w3)) /\
  (forall w1,
     scrapeArticlesOnPage w = (Ok [], w1) ->
     getFirstNArticles n w0 = (Ok (Some acc), w1)).
Proof.
  intros R Hn Hp. split.
  - intros items w1 e1 w2 e2 w3 Es Hne Hshort E1 E2.
    pose proof (withRetry_two_failures navigateToNextPage 2000
                  "pagination navigation" _ _ _ _ _ E1 E2) as Eretry.
    pose proof (loopRound_navigation_failed _ _ _ _ _ _ _ _
                  Hn Hp Es Hne Hshort Eretry) as Eround.
    rewrite (getFirstNArticles_break _ _ _ _ _ _ _ R Eround).
    cbn [collected]. rewrite take_ge by lia. reflexivity.
  - intros w1 Es.
    pose proof (loopRound_empty _ _ _ _ _ Hn Hp Es) as Eround.
    rewrite (getFirstNArticles_break _ _ _ _ _ _ _ R Eround).
    cbn [collected]. rewrite take_ge by lia. reflexivity.
Qed.

Lemma broken_after_two_second_round :
  Reaches 10 Script.broken_after_two (Script.stories 1 4) 1
    (Script.mk (Script.stories 5 4) [Script.stories 9 4] [false; false] 500).
Proof.
  apply (Reaches_round 10 Script.broken_after_two [] 0 Script.broken_after_two);
    [apply Reaches_start | reflexivity].
Qed.

Lemma four_by_three_fourth_round :
  Reaches 20 Script.four_by_three (Script.stories 1 12) 3
    (Script.mk [] [] [] 1500).
Proof.
  apply (Reaches_round 20 Script.four_by_three (Script.stories 1 8) 2
           (Script.mk (Script.stories 9 4) [[]] [] 1000)); [|reflexivity].
  apply (Reaches_round 20 Script.four_by_three (Script.stories 1 4) 1
           (Script.mk (Script.stories 5 4) [Script.stories 9 4; []] [] 500));
    [|reflexivity].
  apply (Reaches_round 20 Script.four_by_three [] 0 Script.four_by_three);
    [apply Reaches_start | reflexivity].
Qed.

Lemma getFirstNArticles_stops_gracefully_witness :
  getFirstNArticles 10 Script.broken_after_two
  = (Ok (Some (Script.stories 1 8)),
     Script.mk (Script.stories 5 4) [Script.stories 9 4] [] 2500) /\
  getFirstNArticles 20 Script.four_by_three
  = (Ok (Some (Script.stories 1 12)), Script.mk [] [] [] 1500).
Proof.
  split.
  - refine (proj1 (getFirstNArticles_stops_gracefully 10 Script.broken_after_two
                     (Script.stories 1 4) 1 _ broken_after_two_second_round _ _)
                  (Script.stories 5 4) _ Script.timeout _ Script.timeout _
                  _ _ _ _ _).
    + simpl. lia.
    + unfold MAX_PAGES_TO_VISIT. lia.
    + reflexivity.
    + discriminate.
    + simpl. lia.
    + reflexivity.
    + reflexivity.
  - refine (proj2 (getFirstNArticles_stops_gracefully 20 Script.four_by_three
                     (Script.stories 1 12) 3 _ four_by_three_fourth_round _ _)
                  _ _).
    + simpl. lia.
    + unfold MAX_PAGES_TO_VISIT. lia.
    + reflexivity.
Defined.

(** ** The report *)

Lemma Math_min_spec (t0 : Z) (rest : list Z) :
  In (Math_min t0 rest) (t0 :: rest) /\
  forall t, In t (t0 :: rest) -> (Math_min t0 rest <= t)%Z.
Proof.
  unfold Math_min. revert t0. induction rest as [|x rest IH]; intros t0; simpl.
  - split; [now left | intros t [<-|[]]; lia].
  - destruct (IH (Z.min t0 x)) as [Hin Hle]. split.
    + destruct Hin as [E|Hin]; [|now right; right].
      rewrite <- E. destruct (Z.min_spec t0 x) as [[_ ->]|[_ ->]]; auto.
    + intros t [<-|[<-|Ht]].
      * specialize (Hle _ (or_introl eq_refl)). lia.
      * specialize (Hle _ (or_introl eq_refl)). lia.
      * apply Hle. now right.
Qed.

Lemma Math_max_spec (t0 : Z) (rest : list Z) :
  In (Math_max t0 rest) (t0 :: rest) /\
  forall t, In t (t0 :: rest) -> (t <= Math_max t0 rest)%Z.
Proof.
  unfold Math_max. revert t0. induction rest as [|x rest IH]; intros t0; simpl.
  - split; [now left | intros t [<-|[]]; lia].
  - destruct (IH (Z.max t0 x)) as [Hin Hle]. split.
    + destruct Hin as [E|Hin]; [|now right; right].
      rewrite <- E. destruct (Z.max_spec t0 x) as [[_ ->]|[_ ->]]; auto.
    + intros t [<-|[<-|Ht]].
      * specialize (Hle _ (or_introl eq_refl)). lia.
      * specialize (Hle _ (or_introl eq_refl)). lia.
      * apply Hle. now right.
Qed.

(** The parsed timestamps are the instants of the parsable items. *)
Lemma parsedTimestamps_In (details : list Detail.t) (t : Z) :
  In t (parsedTimestamps details) <->
  exists d, In d details /\ Detail.timestamp d = Num t.
Proof.
  unfold parsedTimestamps. induction details as [|d details IH]; simpl.
  - split; [intros [] | intros (d & [] & _)].
  - unfold omap, list_omap in *. cbn. fold (@omap list _).
    destruct (Detail.timestamp d) as [x|] eqn:E; simpl; rewrite IH.
    + split.
      * intros [<-|(d' & Hd & Et)]; eauto.
      * intros (d' & [<-|Hd] & Et); [left; congruence | eauto].
    + split.
      * intros (d' & Hd & Et); eauto.
      * intros (d' & [<-|Hd] & Et); [congruence | eauto].
Qed.

Lemma Date_toISOString_valid `{JsRuntime} (t : Z) :
  valid_time t = true -> Date_toISOString t = Ok (Date_isoFormat t).
Proof. intros E. unfold Date_toISOString. now rewrite E. Qed.

(** Claim C9, as stated, fails: an age text with a very large count is
    parsable, its instant lies outside the range of [Date], and
    [toISOString] throws while the statistics are built, so that no report
    is built at all. *)
Lemma buildResultObject_throws_outside_Date_range :
  let articles := [mkArticle "Ancient" "100100000 days ago" None] in
  let result := validateArticles articles 1736084700000 in
  Validation.isSorted result = true /\
  parsedTimestamps (Validation.details result) = [(-8646903915300000)%Z] /\
  buildResultObject articles result 1736084700000 1736084701000
  = Throw (RangeError "Invalid time value").
Proof. repeat split. Qed.

(** Claim C9, amended.  With start and finish times and parsable instants
    that are valid [Date] time values (magnitude at most 8.64e15 ms), the
    report is built; its statistics are absent ([null]) when no instant is
    parsable, the empty list included; and when at least one is parsable
    they give the smallest instant as oldest, the largest as newest, their
    difference in hours as span, and the count of unparsable entries. *)
Theorem buildResultObject_statistics `{JsRuntime}
    (articles : list Article) (validationResult : Validation.t)
    (startedAt finishedAt : Z) :
  let details := Validation.details validationResult in
  valid_time startedAt = true -> valid_time finishedAt = true ->
  (forall d t, In d details -> Detail.timestamp d = Num t -> valid_time t = true) ->
  exists report,
    buildResultObject articles validationResult startedAt finishedAt = Ok report /\
    ((forall d, In d details -> Detail.timestamp d = NaN) ->
     Report.statistics report = None) /\
    ((exists d t, In d details /\ Detail.timestamp d = Num t) ->
     exists oldest newest,
       (exists d, In d details /\ Detail.timestamp d = Num oldest) /\
       (exists d, In d details /\ Detail.timestamp d = Num newest) /\
       (forall d t, In d details -> Detail.timestamp d = Num t ->
                    (oldest <= t <= newest)%Z) /\
       Report.statistics report
       = Some (Stats.mk (Date_isoFormat oldest) (Date_isoFormat newest)
                 (toFixed2 (newest - oldest) 3600000)
                 (length (List.filter
                            (fun d => Number_isNaN (Detail.timestamp d))
                            details)))).
Proof.
  intros details Hs Hf Hvalid.
  unfold buildResultObject, buildStats. fold details.
  destruct (parsedTimestamps details) as [|t0 rest] eqn:Ets.
  - cbn [result_bind]. rewrite !Date_toISOString_valid by assumption.
    cbn [result_bind]. eexists. split; [reflexivity|]. cbn [Report.statistics].
    split; [reflexivity|].
    intros (d & t & Hd & Et).
    assert (In t (parsedTimestamps details)) as Hin
      by (apply parsedTimestamps_In; eauto).
    rewrite Ets in Hin. destruct Hin.
  - destruct (Math_min_spec t0 rest) as [Hmin_in Hmin].
    destruct (Math_max_spec t0 rest) as [Hmax_in Hmax].
    rewrite <- Ets in Hmin_in, Hmin, Hmax_in, Hmax.
    apply parsedTimestamps_In in Hmin_in as Hmin_d.
    apply parsedTimestamps_In in Hmax_in as Hmax_d.
    destruct Hmin_d as (dmin & Hdmin & Emin), Hmax_d as (dmax & Hdmax & Emax).
    rewrite (Date_toISOString_valid (Math_min t0 rest)) by eauto.
    rewrite (Date_toISOString_valid (Math_max t0 rest)) by eauto.
    cbn [result_bind]. rewrite !Date_toISOString_valid by assumption.
    cbn [result_bind]. eexists. split; [reflexivity|]. cbn [Report.statistics].
    split.
    + intros Hnone. rewrite (Hnone _ Hdmin) in Emin. discriminate.
    + intros _. exists (Math_min t0 rest), (Math_max t0 rest).
      split; [eauto|]. split; [eauto|]. split; [|reflexivity].
      intros d t Hd Et.
      assert (In t (parsedTimestamps details)) as Hin
        by (apply parsedTimestamps_In; eauto).
      split; [apply Hmin | apply Hmax]; exact Hin.
Qed.

Lemma buildResultObject_statistics_witness :
  let articles := [mkArticle "A" "1 minute ago" None;
                   mkArticle "B" "soon" None;
                   mkArticle "C" "3 minutes ago" None] in
  exists report,
    buildResultObject articles (validateArticles articles 1736084700000)
                      1736084700000 1736084701000 = Ok report /\
    Report.statistics report <> None.
Proof.
  intros articles.
  destruct (buildResultObject_statistics articles
              (validateArticles articles 1736084700000)
              1736084700000 1736084701000)
    as (report & E & _ & Hsome).
  - reflexivity.
  - reflexivity.
  - intros d t [<-|[<-|[<-|[]]]] Et; vm_compute in Et; inversion Et; reflexivity.
  - exists report. split; [exact E|].
    destruct Hsome as (oldest & newest & _ & _ & _ & ->); [|discriminate].
    eexists _, _. split; [left; reflexivity | reflexivity].
Defined.

(** The statistics of a small list, in full. *)
Example buildResultObject_statistics_example :
  let articles := [mkArticle "A" "1 minute ago" None;
                   mkArticle "B" "soon" None;
                   mkArticle "C" "3 minutes ago" None] in
  result_bind
    (buildResultObject articles (validateArticles articles 1736084700000)
                       1736084700000 1736084701000)
    (fun report => Ok (Report.statistics report))
  = Ok (Some (Stats.mk "2025-01-05T13:42:00.000Z" "2025-01-05T13:44:00.000Z"
                       "0.03" 1)).
Proof. reflexivity. Qed.

Example buildResultObject_no_parsable_instant :
  result_bind
    (buildResultObject [] (Validation.mk false [] []) 1736084700000 1736084701000)
    (fun report => Ok (Report.statistics report))
  = Ok None /\
  result_bind
    (buildResultObject [mkArticle "B" "soon" None]
                       (validateArticles [mkArticle "B" "soon" None] 1736084700000)
                       1736084700000 1736084701000)
    (fun report => Ok (Report.statistics report, Report.meta report))
  = Ok (None, Meta.mk "2025-01-05T13:45:00.000Z" "2025-01-05T13:45:01.000Z"
                      1000 "1.00" 200 1).
Proof. split; reflexivity. Qed.

(** The samples of a report that was built. *)
Lemma buildResultObject_samples `{JsRuntime}
    (articles : list Article) (validationResult : Validation.t)
    (startedAt finishedAt : Z) (report : Report.t) :
  buildResultObject articles validationResult startedAt finishedAt = Ok report ->
  Report.first5 report
  = imap (fun i a => Sample.mk (Z.of_nat i + 1) (title a) (ageText a))
         (slice_first 5 articles) /\
  Report.last3 report
  = imap (fun i a => Sample.mk (Z.of_nat (length articles) - 2 + Z.of_nat i)
                               (title a) (ageText a))
         (slice_last 3 articles).
Proof.
  unfold buildResultObject.
  destruct (buildStats _) as [stats|e]; [|discriminate].
  destruct (Date_toISOString startedAt) as [started|e]; [|discriminate].
  destruct (Date_toISOString finishedAt) as [finished|e]; [|discriminate].
  cbn [result_bind]. intros E. inversion E; subst. now split.
Qed.

(** The [i]-th entry of [last3] is the article at index
    [length articles - 3 + i] (the subtraction stopping at 0, as
    [slice(-3)] does), and the position written on it is
    [length articles - 2 + i]. *)
Lemma last3_entry `{JsRuntime}
    (articles : list Article) (validationResult : Validation.t)
    (startedAt finishedAt : Z) (report : Report.t) (i : nat) (s : Sample.t) :
  buildResultObject articles validationResult startedAt finishedAt = Ok report ->
  Report.last3 report !! i = Some s ->
  exists a,
    articles !! (length articles - 3 + i) = Some a /\
    s = Sample.mk (Z.of_nat (length articles) - 2 + Z.of_nat i)
                  (title a) (ageText a).
Proof.
  intros E Es. apply buildResultObject_samples in E as [_ E].
  rewrite E, list_lookup_imap in Es. unfold slice_last in Es.
  rewrite lookup_drop in Es.
  destruct (articles !! (length articles - 3 + i)) as [a|]; [|discriminate].
  exists a. split; [reflexivity|]. now inversion Es.
Qed.

(** Claim C10 on the code: with a single article the entry of [last3]
    carries position -1, and with two articles positions 0 and 1, where the
    articles stand at positions 1, and 1 and 2. *)
Theorem last3_positions_short_list :
  let one := [mkArticle "A" "1 minute ago" None] in
  let two := [mkArticle "A" "1 minute ago" None;
              mkArticle "B" "2 minutes ago" None] in
  result_bind
    (buildResultObject one (validateArticles one 1736084700000)
                       1736084700000 1736084701000)
    (fun report => Ok (Report.last3 report))
  = Ok [Sample.mk (-1) "A" "1 minute ago"] /\
  result_bind
    (buildResultObject two (validateArticles two 1736084700000)
                       1736084700000 1736084701000)
    (fun report => Ok (Report.last3 report))
  = Ok [Sample.mk 0 "A" "1 minute ago"; Sample.mk 1 "B" "2 minutes ago"].
Proof. split; reflexivity. Qed.

(** With three articles or more, [last3] has three entries and each
    carries the 1-based position of its article in the collected list. *)
Theorem last3_positions_three_or_more `{JsRuntime}
    (articles : list Article) (validationResult : Validation.t)
    (startedAt finishedAt : Z) (report : Report.t) :
  3 <= length articles ->
  buildResultObject articles validationResult startedAt finishedAt = Ok report ->
  length (Report.last3 report) = 3 /\
  forall i s, Report.last3 report !! i = Some s ->
    exists j a,
      articles !! j = Some a /\ j = length articles - 3 + i /\
      Sample.position s = (Z.of_nat j + 1)%Z /\
      Sample.title s = title a /\ Sample.age s = ageText a.
Proof.
  intros Hlen E. split.
  - apply buildResultObject_samples in E as [_ ->].
    rewrite length_imap. unfold slice_last. rewrite length_drop. lia.
  - intros i s Es. destruct (last3_entry _ _ _ _ _ _ _ E Es) as (a & Ea & ->).
    exists (length articles - 3 + i), a. cbn. repeat split; auto. lia.
Qed.

Lemma last3_positions_three_or_more_witness :
  let articles := Script.stories 1 12 in
  exists report,
    buildResultObject articles (validateArticles articles 1736084700000)
                      1736084700000 1736084701000 = Ok report /\
    length (Report.last3 report) = 3.
Proof.
  intros articles. eexists. split; [reflexivity|].
  refine (proj1 (last3_positions_three_or_more articles
                   (validateArticles articles 1736084700000)
                   1736084700000 1736084701000 _ _ _)).
  - simpl. lia.
  - reflexivity.
Defined.

(** The first five entries always carry their true positions. *)
Lemma first5_positions `{JsRuntime}
    (articles : list Article) (validationResult : Validation.t)
    (startedAt finishedAt : Z) (report : Report.t) (i : nat) (s : Sample.t) :
  buildResultObject articles validationResult startedAt finishedAt = Ok report ->
  Report.first5 report !! i = Some s ->
  exists a, articles !! i = Some a /\
            s = Sample.mk (Z.of_nat i + 1) (title a) (ageText a).
Proof.
  intros E Es. apply buildResultObject_samples in E as [E _].
  rewrite E, list_lookup_imap in Es. unfold slice_first in Es.
  destruct (take 5 articles !! i) as [a|] eqn:Ea; [|discriminate].
  exists a. split; [|now inversion Es].
  rewrite lookup_take_Some in Ea. tauto.
Qed.

(** * Further properties of the code *)

(** ** The relative parser *)




(** Property X3.  The search for the age pattern finds a match exactly in
    the texts that contain one or more digits, then white space, then one
    or more word characters; so the relative parser returns [null] on every
    text without such a run, and a non-null result proves there is one. *)
Theorem age_match_iff_pattern (ageText : string) :
  (is_Some (age_match ageText) <-> has_age_pattern ageText) /\
  (forall nowMs, is_Some (parseRelativeAgeToTimestamp ageText nowMs) ->
                 has_age_pattern ageText).
Proof.
  split; [split|].
  - intros [[ds wd] E]. eauto using age_match_sound.
  - apply age_match_complete.
  - intros nowMs [t E]. unfold parseRelativeAgeToTimestamp in E.
    destruct (age_match ageText) as [[ds wd]|] eqn:Em; [|discriminate].
    eauto using age_match_sound.
Qed.

Lemma lower_char_word c : is_word c = true -> is_word (lower_char c) = true.
Proof. destruct c as [[] [] [] [] [] [] [] []]; vm_compute; congruence. Qed.

Lemma lower_char_idem c : lower_char (lower_char c) = lower_char c.
Proof. destruct c as [[] [] [] [] [] [] [] []]; reflexivity. Qed.

Lemma toLowerCase_word u :
  all_chars is_word u = true -> all_chars is_word (toLowerCase u) = true.
Proof.
  induction u as [|c u IH]; simpl; [reflexivity|].
  intros E. apply andb_true_iff in E as [Hc Hu].
  now rewrite (lower_char_word c Hc), (IH Hu).
Qed.

Lemma toLowerCase_idem u : toLowerCase (toLowerCase u) = toLowerCase u.
Proof.
  induction u as [|c u IH]; simpl; [reflexivity|].
  now rewrite lower_char_idem, IH.
Qed.

(** Property X4.  The unit word is read without regard to letter case: two
    age texts that differ only in the case of the letters of the unit word
    get the same result. *)
Theorem parseRelativeAgeToTimestamp_case_insensitive
    (N : N) (unit1 unit2 rest : string) (nowMs : Z) :
  unit1 <> "" -> all_chars is_word unit1 = true ->
  all_chars is_word unit2 = true ->
  toLowerCase unit1 = toLowerCase unit2 ->
  stops is_word rest = true ->
  parseRelativeAgeToTimestamp (String_of_N N ++ " " ++ unit1 ++ rest) nowMs
  = parseRelativeAgeToTimestamp (String_of_N N ++ " " ++ unit2 ++ rest) nowMs.
Proof.
  intros Hne Hw1 Hw2 Elow Hrest.
  assert (unit2 <> "") as Hne2.
  { destruct unit2; [|discriminate]. destruct unit1; [congruence|discriminate]. }
  rewrite !parseRelative_numeral by assumption.
  cbv zeta. now rewrite Elow.
Qed.

Lemma parseRelativeAgeToTimestamp_case_insensitive_witness :
  parseRelativeAgeToTimestamp "5 HOURS ago" 1736084700000%Z
  = parseRelativeAgeToTimestamp "5 hours ago" 1736084700000%Z.
Proof.
  apply (parseRelativeAgeToTimestamp_case_insensitive
           5%N "HOURS" "hours" " ago" 1736084700000%Z);
    try reflexivity.
  discriminate.
Defined.

(** ** The sort check and the validator *)

Lemma first_true (P : nat -> bool) (j : nat) :
  P j = true ->
  exists k, k <= j /\ P k = true /\ forall i, i < k -> P i = false.
Proof.
  induction j as [j IH] using lt_wf_ind. intros Hj.
  destruct (existsb P (seq 0 j)) eqn:E.
  - apply existsb_exists in E as (i & Hi & HP). apply in_seq in Hi.
    destruct (IH i ltac:(lia) HP) as (k & Hk & HPk & Hfirst).
    exists k. split; [lia | auto].
  - exists j. split; [lia|]. split; [exact Hj|].
    intros i Hi. destruct (P i) eqn:HP; [|reflexivity].
    assert (existsb P (seq 0 j) = true) as E'
      by (apply existsb_exists; exists i; split; [apply in_seq; lia | exact HP]).
    congruence.
Qed.

Lemma inversion_at_zero details : inversion_at details 0 = false.
Proof.
  unfold inversion_at. cbn. destruct (details !! 0) as [d|]; [|reflexivity].
  destruct (Detail.timestamp d); simpl; [apply Z.ltb_irrefl | reflexivity].
Qed.

Lemma inversion_at_lookup details k :
  inversion_at details k = true ->
  exists prev curr,
    details !! (k - 1) = Some prev /\ details !! k = Some curr /\
    num_lt (Detail.timestamp prev) (Detail.timestamp curr) = true.
Proof.
  unfold inversion_at.
  destruct (details !! (k - 1)) as [prev|]; [|discriminate].
  destruct (details !! k) as [curr|]; [|discriminate]. eauto.
Qed.

(** The problems of the sort check: none without an inversion, and the
    report of the first inversion otherwise. *)
Lemma sort_problems_cases details :
  ((forall j, inversion_at details j = false) /\
   Check.problems (checkSortedNewestToOldest details) = [])
  \/ (exists k prev curr,
        inversion_at details k = true /\
        details !! (k - 1) = Some prev /\ details !! k = Some curr /\
        Check.problems (checkSortedNewestToOldest details)
        = [orderingProblem prev curr]).
Proof.
  unfold checkSortedNewestToOldest. cbn [Check.problems].
  destruct (existsb (inversion_at details) (seq 0 (length details))) eqn:E.
  - right. apply existsb_exists in E as (j & _ & Hj).
    destruct (first_true _ _ Hj) as (k & _ & Hk & Hfirst).
    destruct (inversion_at_lookup _ _ Hk) as (prev & curr & Ep & Ec & Hlt).
    assert (1 <= k) as Hk1.
    { destruct k; [|lia]. rewrite inversion_at_zero in Hk. discriminate. }
    exists k, prev, curr. repeat (split; [assumption|]).
    rewrite (sortedLoop_first details (length details) 1 k prev curr);
      auto; lia.
  - left.
    assert (forall j, inversion_at details j = false) as Hno.
    { intros j. destruct (inversion_at details j) eqn:Hj; [|reflexivity].
      destruct (inversion_at_lookup _ _ Hj) as (_ & curr & _ & Ec & _).
      apply lookup_lt_Some in Ec.
      assert (existsb (inversion_at details) (seq 0 (length details)) = true)
        by (apply existsb_exists; exists j; split; [apply in_seq; lia | exact Hj]).
      congruence. }
    split; [exact Hno|]. now rewrite sortedLoop_clean by (auto; lia).
Qed.

(** Property X5.  The sort check passes exactly when no adjacent pair is an
    inversion, and it never reports more than one problem. *)
Theorem checkSortedNewestToOldest_ok_iff (details : list Detail.t) :
  (Check.ok (checkSortedNewestToOldest details) = true <->
   forall j, inversion_at details j = false) /\
  length (Check.problems (checkSortedNewestToOldest details)) <= 1.
Proof.
  assert (Check.ok (checkSortedNewestToOldest details) = true <->
          Check.problems (checkSortedNewestToOldest details) = []) as Hok
    by (unfold checkSortedNewestToOldest; cbn [Check.ok Check.problems];
        apply eqb_length_nil).
  destruct (sort_problems_cases details)
    as [[Hno E] | (k & prev & curr & Hk & _ & _ & E)].
  - split; [|rewrite E; simpl; lia]. rewrite Hok. split; auto.
  - split; [|rewrite E; simpl; lia]. rewrite Hok, E. split; [discriminate|].
    intros Hno. rewrite Hno in Hk. discriminate.
Qed.

Lemma filter_nil_all_false {A} (f : A -> bool) (l : list A) :
  List.filter f l = [] -> forall i x, l !! i = Some x -> f x = false.
Proof.
  induction l as [|y l IH]; intros E i x Ei; [discriminate|].
  simpl in E. destruct (f y) eqn:Ey; [discriminate|].
  destruct i as [|i]; [inversion Ei; subst; exact Ey | eapply IH; eauto].
Qed.

(** In a list that passed both checks every earlier timestamp is at least
    every later one. *)
Lemma passed_globally_sorted (details : list Detail.t) :
  Check.problems (checkTimestampsParsable details) = [] ->
  Check.problems (checkSortedNewestToOldest details) = [] ->
  forall i j di dj, i <= j ->
    details !! i = Some di -> details !! j = Some dj ->
    exists x y, Detail.timestamp di = Num x /\ Detail.timestamp dj = Num y /\
                (y <= x)%Z.
Proof.
  intros Eparse Esort.
  assert (forall i d, details !! i = Some d -> exists t, Detail.timestamp d = Num t)
    as Hnum.
  { rewrite checkTimestampsParsable_problems in Eparse.
    apply map_eq_nil in Eparse. intros i d Ed.
    pose proof (filter_nil_all_false _ _ Eparse i d Ed) as Hd.
    cbn beta in Hd. destruct (Detail.timestamp d); [eauto | discriminate]. }
  assert (forall j, inversion_at details j = false) as Hno.
  { destruct (sort_problems_cases details)
      as [[Hno _] | (k & prev & curr & _ & _ & _ & E)]; [exact Hno|].
    rewrite E in Esort. discriminate. }
  intros i j. induction j as [|j IH]; intros di dj Hij Ei Ej.
  - assert (i = 0) as -> by lia. rewrite Ei in Ej. inversion Ej; subst.
    destruct (Hnum _ _ Ei) as [x Ex]. exists x, x. repeat split; auto. lia.
  - destruct (Nat.eq_dec i (S j)) as [->|Hne].
    + rewrite Ei in Ej. inversion Ej; subst.
      destruct (Hnum _ _ Ei) as [x Ex]. exists x, x. repeat split; auto. lia.
    + destruct (lookup_lt_is_Some_2 details j) as [dm Em];
        [apply lookup_lt_Some in Ej; lia|].
      destruct (IH di dm ltac:(lia) Ei Em) as (x & m & Ex & Emid & Hxm).
      destruct (Hnum _ _ Ej) as [y Ey]. exists x, y. repeat split; auto.
      pose proof (Hno (S j)) as Hinv. unfold inversion_at in Hinv.
      replace (S j - 1) with j in Hinv by lia.
      rewrite Em, Ej, Emid, Ey in Hinv. simpl in Hinv.
      apply Z.ltb_ge in Hinv. lia.
Qed.

(** Property X6.  A list that the validator passes is sorted as a whole,
    not only pair by pair: every item has a parsable instant, and the
    instant of an item is at least that of every item after it. *)
Theorem validateArticles_passed_means_sorted `{JsRuntime}
    (articles : list Article) (nowMs : Z) :
  Validation.isSorted (validateArticles articles nowMs) = true ->
  forall i j a b, i <= j ->
    articles !! i = Some a -> articles !! j = Some b ->
    exists x y, toTimestamp a nowMs = Num x /\ toTimestamp b nowMs = Num y /\
                (y <= x)%Z.
Proof.
  intros Hpass i j a b Hij Ea Eb.
  apply validateArticles_fields in Hpass as [Eparse Esort].
  pose proof (passed_globally_sorted _ Eparse Esort i j) as Hsorted.
  rewrite !enrich_lookup, Ea, Eb in Hsorted.
  destruct (Hsorted _ _ Hij eq_refl eq_refl) as (x & y & Ex & Ey & Hxy).
  eauto.
Qed.

Lemma validateArticles_passed_means_sorted_witness :
  exists x y,
    toTimestamp (mkArticle "A" "1 minute ago" None) 1736100000000 = Num x /\
    toTimestamp (mkArticle "D" "" (Some "2025-01-05T13:45:00")) 1736100000000
    = Num y /\ (y <= x)%Z.
Proof.
  refine (validateArticles_passed_means_sorted
            [mkArticle "A" "1 minute ago" None;
             mkArticle "B" "1 minute ago" (Some "");
             mkArticle "C" "2 hours ago" None;
             mkArticle "D" "" (Some "2025-01-05T13:45:00")]
            1736100000000 _ 0 3 _ _ _ _ _).
  - reflexivity.
  - lia.
  - reflexivity.
  - reflexivity.
Defined.

(** ** The reference time *)











(** ** The retry wrapper *)

Section RetryFacts.
Context {W : Type} `{Page W}.

Lemma retryLoop_round {A} (fn : Async W A) attempts delayMs label
    rounds i lastError w :
  retryLoop fn attempts delayMs label (S rounds) i lastError w
  = match fn w with
    | (Ok a, w') => (Ok a, w')
    | (Throw err, w') =>
        retryLoop fn attempts delayMs label rounds (S i) (Some err)
                  (if (i <? attempts)%nat then sleep delayMs w' else w')
    end.
Proof. reflexivity. Qed.

Lemma retryLoop_success {A} (fn : Async W A) attempts delayMs label
    k w w' a w'' :
  Failing fn delayMs k w w' -> fn w' = (Ok a, w'') ->
  forall rounds i lastError,
    i + k <= attempts -> k < rounds ->
    retryLoop fn attempts delayMs label rounds i lastError w = (Ok a, w'').
Proof.
  intros Hfail Eok.
  induction Hfail as [w | k w err w1 w' Efn _ IH];
    intros rounds i lastError Hi Hrounds;
    (destruct rounds as [|rounds]; [lia|]); cbn [retryLoop].
  - now rewrite Eok.
  - rewrite Efn.
    assert ((i <? attempts)%nat = true) as -> by (apply Nat.ltb_lt; lia).
    apply IH; [exact Eok | lia | lia].
Qed.

Lemma retryLoop_exhausted {A} (fn : Async W A) attempts delayMs label
    k w w' err w'' :
  Failing fn delayMs k w w' -> fn w' = (Throw err, w'') ->
  forall i lastError,
    i + k = attempts ->
    retryLoop fn attempts delayMs label (S k) i lastError w
    = (Throw (Error ("[Retry] " ++ label ++ " failed after " ++
                     String_of_N (N.of_nat attempts) ++ " attempts: " ++
                     exn_to_string err)), w'').
Proof.
  intros Hfail Elast.
  induction Hfail as [w | k w e1 w1 w' Efn _ IH]; intros i lastError Hi;
    rewrite retryLoop_round.
  - rewrite Elast.
    assert ((i <? attempts)%nat = false) as -> by (apply Nat.ltb_ge; lia).
    reflexivity.
  - rewrite Efn.
    assert ((i <? attempts)%nat = true) as -> by (apply Nat.ltb_lt; lia).
    apply IH; [exact Elast | lia].
Qed.

End RetryFacts.

(** Property X8.  [withRetry] returns the value of the first attempt that
    succeeds: when the first [k] attempts throw, [k] being less than
    [attempts], and the next one returns, the wrapper returns that value,
    having slept [delayMs] after each failure and called [fn] no more. *)
Theorem withRetry_returns_first_success {W A : Type} `{Page W}
    (fn : Async W A) (attempts : nat) (delayMs : Z) (label : string)
    (k : nat) (w w' : W) (a : A) (w'' : W) :
  Failing fn delayMs k w w' -> k < attempts -> fn w' = (Ok a, w'') ->
  withRetry fn attempts delayMs label w = (Ok a, w'').
Proof.
  intros Hfail Hk Eok. unfold withRetry.
  eapply retryLoop_success; eauto; lia.
Qed.

Lemma withRetry_returns_first_success_witness :
  fst (withRetry goto 3 2000 "initial navigation"
         (Session.start Script.four_by_three [false; false]))
  = Ok tt.
Proof.
  erewrite (withRetry_returns_first_success goto 3 2000 "initial navigation" 2).
  - reflexivity.
  - eapply Failing_more; [reflexivity|].
    eapply Failing_more; [reflexivity|]. apply Failing_none.
  - lia.
  - reflexivity.
Defined.

(** Property X9.  When every one of the [attempts] attempts throws,
    [withRetry] throws an [Error] whose message names the label, the number
    of attempts and the last error; it sleeps between the attempts but not
    after the last one. *)
Theorem withRetry_throws_after_last_attempt {W A : Type} `{Page W}
    (fn : Async W A) (delayMs : Z) (label : string)
    (k : nat) (w w' : W) (err : exn) (w'' : W) :
  Failing fn delayMs k w w' -> fn w' = (Throw err, w'') ->
  withRetry fn (S k) delayMs label w
  = (Throw (Error ("[Retry] " ++ label ++ " failed after " ++
                   String_of_N (N.of_nat (S k)) ++ " attempts: " ++
                   exn_to_string err)), w'').
Proof.
  intros Hfail Elast. unfold withRetry.
  eapply retryLoop_exhausted; eauto.
Qed.

Lemma withRetry_throws_after_last_attempt_witness :
  withRetry goto 3 2000 "initial navigation"
    (Session.start Script.four_by_three [false; false; false])
  = (Throw (Error "[Retry] initial navigation failed after 3 attempts: Error: Timeout exceeded."),
     Session.mk (Script.mk (Script.stories 1 4)
                   [Script.stories 5 4; Script.stories 9 4; []] [] 4000)
                [] 1736084700000 [] []).
Proof.
  erewrite (withRetry_throws_after_last_attempt goto 2000 "initial navigation" 2);
    [ | eapply Failing_more; [reflexivity|];
        eapply Failing_more; [reflexivity|]; apply Failing_none
      | reflexivity ].
  reflexivity.
Defined.

(** Without any attempt allowed the function is never called. *)
Example withRetry_no_attempt :
  forall (fn : Async Session.world unit) w,
    withRetry fn 0 500 "operation" w
    = (Throw (Error "[Retry] operation failed after 0 attempts: undefined"), w).
Proof. reflexivity. Qed.

(** ** More on the collector *)

Section CollectorMore.
Context {W : Type} `{Page W}.

(** A round whose page brings the accumulator to the target leaves the
    loop without touching the "More" link. *)
Lemma loopRound_target n acc pagesVisited w items w1 :
  length acc < n -> pagesVisited < MAX_PAGES_TO_VISIT ->
  scrapeArticlesOnPage w = (Ok items, w1) ->
  n <= length (acc ++ items) ->
  loopRound n acc pagesVisited w
  = (Ok (Break (mkLoopEnd (acc ++ items) (S pagesVisited) TargetReached)), w1).
Proof.
  intros Hn Hp Es Hreach. unfold loopRound.
  apply Nat.ltb_lt in Hn as Hn'. rewrite Hn'.
  assert ((MAX_PAGES_TO_VISIT <? S pagesVisited)%nat = false) as ->
    by (apply Nat.ltb_ge; lia).
  unfold bind at 1. rewrite Es.
  assert ((length items =? 0)%nat = false) as ->.
  { apply Nat.eqb_neq. rewrite length_app in Hreach. lia. }
  apply Nat.leb_le in Hreach. now rewrite Hreach.
Qed.

(** A round that starts with the page limit used up leaves the loop at
    once. *)
Lemma loopRound_limit n acc w :
  length acc < n ->
  loopRound n acc MAX_PAGES_TO_VISIT w
  = (Ok (Break (mkLoopEnd acc (S MAX_PAGES_TO_VISIT) PageLimit)), w).
Proof.
  intros Hn. unfold loopRound. apply Nat.ltb_lt in Hn. now rewrite Hn.
Qed.

(** The pages counted when a round leaves the loop. *)
Lemma loopRound_break_pages n acc visited w final w' :
  visited <= MAX_PAGES_TO_VISIT ->
  loopRound n acc visited w = (Ok (Break final), w') ->
  (cause final = PageLimit /\ pagesVisited final = S MAX_PAGES_TO_VISIT
   /\ collected final = acc /\ w' = w)
  \/ (cause final <> PageLimit /\
      pagesVisited final <= MAX_PAGES_TO_VISIT).
Proof.
  intros Hp. unfold loopRound, bind, try, ret.
  destruct (length acc <? n)%nat.
  2:{ intros E. inversion E; subst. right. cbn. split; [discriminate | exact Hp]. }
  destruct (MAX_PAGES_TO_VISIT <? S visited)%nat eqn:El.
  { intros E. inversion E; subst. left. cbn. apply Nat.ltb_lt in El.
    repeat split. lia. }
  apply Nat.ltb_ge in El.
  destruct (scrapeArticlesOnPage w) as [[items|e] w1]; [|discriminate].
  destruct (length items =? 0)%nat.
  { intros E. inversion E; subst. right. cbn. split; [discriminate | exact El]. }
  destruct (n <=? length (acc ++ items))%nat.
  { intros E. inversion E; subst. right. cbn. split; [discriminate | exact El]. }
  destruct (withRetry _ _ _ _ w1) as [[[]|e] w3]; [discriminate|].
  intros E. inversion E; subst. right. cbn. split; [discriminate | exact El].
Qed.

Lemma whileLoop_pages fuel n acc visited w final w' :
  visited <= MAX_PAGES_TO_VISIT ->
  whileLoop fuel n acc visited w = (Ok (Some final), w') ->
  (cause final = PageLimit /\ pagesVisited final = S MAX_PAGES_TO_VISIT)
  \/ (cause final <> PageLimit /\
      pagesVisited final <= MAX_PAGES_TO_VISIT).
Proof.
  revert acc visited w.
  induction fuel as [|fuel IH]; intros acc visited w Hp; [discriminate|].
  rewrite whileLoop_round.
  destruct (loopRound n acc visited w) as [[[acc' pv'|f]|e] w1] eqn:E;
    [| |discriminate].
  - apply loopRound_continue in E as (-> & Hp' & _). now apply IH.
  - intros Ef. inversion Ef; subst.
    destruct (loopRound_break_pages _ _ _ _ _ _ Hp E) as [(? & ? & _)|?]; auto.
Qed.

(** The failure of [navigateToNextPage] on a page without the link. *)
Lemma navigateToNextPage_no_link w w1 :
  findMoreLink w = (Ok false, w1) ->
  navigateToNextPage w
  = (Throw (Error ("Could not find " ++ dquote ++ "More" ++ dquote ++
                   " link for pagination.")), w1).
Proof. intros E. unfold navigateToNextPage, bind. now rewrite E. Qed.

End CollectorMore.

(** One more round of a run, computed. *)
Ltac reach_round R :=
  lazymatch type of R with
  | Reaches ?n ?w0 ?c ?pv ?w =>
      let r := eval vm_compute in (loopRound n c pv w) in
      lazymatch r with
      | (Ok (Continue ?c' ?pv'), ?w') =>
          let R' := fresh "R" in
          assert (Reaches n w0 c' pv' w') as R'
            by (apply (Reaches_round n w0 c pv w c' pv' w' R);
                vm_compute; reflexivity);
          clear R; rename R' into R
      end
  end.

Lemma four_by_three_third_round :
  Reaches 10 Script.four_by_three (Script.stories 1 8) 2
    (Script.mk (Script.stories 9 4) [[]] [] 1000).
Proof.
  pose proof (Reaches_start 10 Script.four_by_three) as R.
  do 2 reach_round R. exact R.
Qed.

Lemma one_per_page_eleventh_round :
  Reaches 20 Script.one_per_page (Script.stories 1 10) 10
    (Script.mk (Script.stories 11 1) [Script.stories 12 1] [] 5000).
Proof.
  pose proof (Reaches_start 20 Script.one_per_page) as R.
  do 10 reach_round R. exact R.
Qed.

(** Property X10.  When the page read in a round brings the accumulator to
    the target, the run returns the first [n] articles of the accumulator
    followed by that page's articles, in that order, and leaves the page as
    the read left it: the "More" link is not followed. *)
Theorem getFirstNArticles_target_reached {W : Type} `{Page W}
    (n : nat) (w0 : W) (acc : list Article) (visited : nat) (w : W)
    (items : list Article) (w1 : W) :
  Reaches n w0 acc visited w ->
  length acc < n -> visited < MAX_PAGES_TO_VISIT ->
  scrapeArticlesOnPage w = (Ok items, w1) ->
  n <= length (acc ++ items) ->
  getFirstNArticles n w0 = (Ok (Some (take n (acc ++ items))), w1).
Proof.
  intros R Hn Hp Es Hreach.
  pose proof (loopRound_target _ _ _ _ _ _ Hn Hp Es Hreach) as Eround.
  now rewrite (getFirstNArticles_break _ _ _ _ _ _ _ R Eround).
Qed.

Lemma getFirstNArticles_target_reached_witness :
  getFirstNArticles 10 Script.four_by_three
  = (Ok (Some (Script.stories 1 10)),
     Script.mk (Script.stories 9 4) [[]] [] 1000).
Proof.
  refine (getFirstNArticles_target_reached 10 Script.four_by_three
            (Script.stories 1 8) 2 _ (Script.stories 9 4) _
            four_by_three_third_round _ _ _ _).
  - simpl. lia.
  - unfold MAX_PAGES_TO_VISIT. lia.
  - reflexivity.
  - simpl. lia.
Defined.

(** Property X11.  A run that comes to the head of the loop after
    [MAX_PAGES_TO_VISIT] pages, still short of the target, returns the
    accumulator as it is and leaves the page alone: no page beyond the
    limit is read. *)
Theorem getFirstNArticles_page_limit {W : Type} `{Page W}
    (n : nat) (w0 : W) (acc : list Article) (w : W) :
  Reaches n w0 acc MAX_PAGES_TO_VISIT w -> length acc < n ->
  getFirstNArticles n w0 = (Ok (Some acc), w).
Proof.
  intros R Hn.
  rewrite (getFirstNArticles_break _ _ _ _ _ _ _ R (loopRound_limit n acc w Hn)).
  cbn [collected]. rewrite take_ge by lia. reflexivity.
Qed.

Lemma getFirstNArticles_page_limit_witness :
  getFirstNArticles 20 Script.one_per_page
  = (Ok (Some (Script.stories 1 10)),
     Script.mk (Script.stories 11 1) [Script.stories 12 1] [] 5000).
Proof.
  refine (getFirstNArticles_page_limit 20 Script.one_per_page
            (Script.stories 1 10) _ one_per_page_eleventh_round _).
  simpl. lia.
Defined.

(** Property X12.  The page counter of a finished loop is at most
    [MAX_PAGES_TO_VISIT + 1], and it has that value exactly when the loop
    was left for the page limit. *)
Theorem collectLoop_pages_bounded {W : Type} `{Page W}
    (n : nat) (w : W) (final : LoopEnd) (w' : W) :
  collectLoop n w = (Ok (Some final), w') ->
  pagesVisited final <= S MAX_PAGES_TO_VISIT /\
  (cause final = PageLimit <-> pagesVisited final = S MAX_PAGES_TO_VISIT).
Proof.
  intros E. unfold collectLoop in E.
  apply whileLoop_pages in E; [|lia].
  destruct E as [[Ec Ep] | [Hc Hp]].
  - rewrite Ep. split; [lia | tauto].
  - split; [lia|]. split; [contradiction | lia].
Qed.

Lemma collectLoop_pages_bounded_witness :
  pagesVisited (mkLoopEnd (Script.stories 1 10) 11 PageLimit)
  <= S MAX_PAGES_TO_VISIT /\
  pagesVisited (mkLoopEnd (Script.stories 1 12) 3 TargetReached)
  <= S MAX_PAGES_TO_VISIT.
Proof.
  split.
  - refine (proj1 (collectLoop_pages_bounded 20 Script.one_per_page _ _ _)).
    reflexivity.
  - refine (proj1 (collectLoop_pages_bounded 10 Script.four_by_three _ _ _)).
    reflexivity.
Defined.

(** Property X13.  On a page without the "More" link (the feed has ended)
    both attempts of the navigation fail without any click, and the run
    returns what it has, that page's articles included, after the one
    sleep between the attempts. *)
Theorem getFirstNArticles_no_more_link {W : Type} `{Page W}
    (n : nat) (w0 : W) (acc : list Article) (visited : nat) (w : W)
    (items : list Article) (w1 w2 w3 : W) :
  Reaches n w0 acc visited w ->
  length acc < n -> visited < MAX_PAGES_TO_VISIT ->
  scrapeArticlesOnPage w = (Ok items, w1) -> items <> [] ->
  length (acc ++ items) < n ->
  findMoreLink w1 = (Ok false, w2) ->
  findMoreLink (sleep 2000 w2) = (Ok false, w3) ->
  getFirstNArticles n w0 = (Ok (Some (acc ++ items)%list), w3).
Proof.
  intros R Hn Hp Es Hne Hshort E1 E2.
  pose proof (withRetry_two_failures navigateToNextPage 2000
                "pagination navigation" _ _ _ _ _
                (navigateToNextPage_no_link _ _ E1)
                (navigateToNextPage_no_link _ _ E2)) as Eretry.
  pose proof (loopRound_navigation_failed _ _ _ _ _ _ _ _
                Hn Hp Es Hne Hshort Eretry) as Eround.
  rewrite (getFirstNArticles_break _ _ _ _ _ _ _ R Eround).
  cbn [collected]. rewrite take_ge by lia. reflexivity.
Qed.

Lemma getFirstNArticles_no_more_link_witness :
  getFirstNArticles 10 (Script.mk (Script.stories 1 4) [] [] 0)
  = (Ok (Some (Script.stories 1 4)),
     Script.mk (Script.stories 1 4) [] [] 2000).
Proof.
  refine (getFirstNArticles_no_more_link 10 _ [] 0 _ (Script.stories 1 4)
            _ _ _ (Reaches_start _ _) _ _ _ _ _ _ _).
  - simpl. lia.
  - unfold MAX_PAGES_TO_VISIT. lia.
  - reflexivity.
  - discriminate.
  - simpl. lia.
  - reflexivity.
  - reflexivity.
Defined.

(** ** More on the report *)

(** Property X14.  In every report that is built, [first5] holds the first
    five articles (all of them when there are fewer), each with its title,
    its age text and its 1-based position in the collected list. *)
Theorem first5_true_positions `{JsRuntime}
    (articles : list Article) (validationResult : Validation.t)
    (startedAt finishedAt : Z) (report : Report.t) :
  buildResultObject articles validationResult startedAt finishedAt = Ok report ->
  length (Report.first5 report) = Nat.min 5 (length articles) /\
  forall i s, Report.first5 report !! i = Some s ->
    exists a, articles !! i = Some a /\
              s = Sample.mk (Z.of_nat i + 1) (title a) (ageText a).
Proof.
  intros E. apply buildResultObject_samples in E as [E _]. rewrite E. split.
  - rewrite length_imap. unfold slice_first. apply length_take.
  - intros i s Es. rewrite list_lookup_imap in Es. unfold slice_first in Es.
    destruct (take 5 articles !! i) as [a|] eqn:Ea; [|discriminate].
    exists a. split; [|now inversion Es].
    rewrite lookup_take_Some in Ea. tauto.
Qed.

Lemma first5_true_positions_witness :
  exists report,
    buildResultObject (Script.stories 1 12)
      (validateArticles (Script.stories 1 12) 1736084700000)
      1736084700000 1736084701000 = Ok report /\
    length (Report.first5 report) = 5.
Proof.
  eexists. split; [reflexivity|].
  refine (proj1 (first5_true_positions (Script.stories 1 12)
                   (validateArticles (Script.stories 1 12) 1736084700000)
                   1736084700000 1736084701000 _ _)).
  reflexivity.
Defined.

Lemma valid_time_spec t :
  valid_time t = true <-> (- MAX_TIME_VALUE <= t <= MAX_TIME_VALUE)%Z.
Proof. unfold valid_time. rewrite Z.leb_le. lia. Qed.

(** The smallest and the largest of a list are valid time values exactly
    when all its elements are. *)
Lemma min_max_valid (t0 : Z) (rest : list Z) :
  valid_time (Math_min t0 rest) = true /\ valid_time (Math_max t0 rest) = true
  <-> forall t, In t (t0 :: rest) -> valid_time t = true.
Proof.
  destruct (Math_min_spec t0 rest) as [Hmin_in Hmin].
  destruct (Math_max_spec t0 rest) as [Hmax_in Hmax].
  split.
  - intros [Vmin Vmax] t Ht. apply valid_time_spec in Vmin, Vmax.
    apply valid_time_spec. specialize (Hmin t Ht). specialize (Hmax t Ht). lia.
  - intros Hall. split; apply Hall; assumption.
Qed.

(** Property X15.  [buildResultObject] builds the report exactly when the
    start time, the finish time and every parsable instant are valid time
    values; otherwise it throws, and what it throws is the RangeError of
    [toISOString]. *)
Theorem buildResultObject_builds_iff_valid `{JsRuntime}
    (articles : list Article) (validationResult : Validation.t)
    (startedAt finishedAt : Z) :
  let details := Validation.details validationResult in
  ((exists report,
      buildResultObject articles validationResult startedAt finishedAt
      = Ok report) <->
   valid_time startedAt = true /\ valid_time finishedAt = true /\
   forall d t, In d details -> Detail.timestamp d = Num t ->
               valid_time t = true) /\
  (forall err,
     buildResultObject articles validationResult startedAt finishedAt
     = Throw err -> err = RangeError "Invalid time value").
Proof.
  intros details.
  assert ((forall d t, In d details -> Detail.timestamp d = Num t ->
                       valid_time t = true)
          <-> forall t, In t (parsedTimestamps details) -> valid_time t = true)
    as Hin.
  { split.
    - intros Hall t Ht. apply parsedTimestamps_In in Ht as (d & Hd & Et). eauto.
    - intros Hall d t Hd Et. apply Hall, parsedTimestamps_In. eauto. }
  rewrite Hin. clear Hin.
  unfold buildResultObject, buildStats. fold details.
  destruct (parsedTimestamps details) as [|t0 rest].
  - cbn [result_bind]. unfold Date_toISOString.
    destruct (valid_time startedAt), (valid_time finishedAt); cbn [result_bind];
      (split; [split; [intros [r E]; try discriminate; repeat split; intros t []
                      | intros (? & ? & _); try discriminate; eauto]
              | intros err E; now inversion E]).
  - rewrite <- min_max_valid. unfold Date_toISOString.
    destruct (valid_time (Math_min t0 rest)), (valid_time (Math_max t0 rest)),
      (valid_time startedAt), (valid_time finishedAt); cbn [result_bind];
      (split; [split; [intros [r E]; try discriminate; auto
                      | intros (? & ? & ? & ?); try discriminate; eauto]
              | intros err E; now inversion E]).
Qed.

Lemma filter_parsed_length (details : list Detail.t) :
  length (List.filter (fun d => Number_isNaN (Detail.timestamp d)) details)
  + length (parsedTimestamps details) = length details.
Proof.
  unfold parsedTimestamps. induction details as [|d details IH]; [reflexivity|].
  cbn. destruct (Detail.timestamp d); cbn; fold (@omap list _) in *;
    unfold omap, list_omap in *; lia.
Qed.

(** Property X16.  In the report of a validated list, when statistics are
    present their count of unparsable entries is the number of problems the
    parse check reported, and with the number of parsable instants it makes
    up the count of collected articles. *)
Theorem unparsableCount_matches_problems `{JsRuntime}
    (articles : list Article) (nowMs startedAt finishedAt : Z)
    (report : Report.t) (stats : Stats.t) :
  let details := enrichArticlesWithTimestamps articles nowMs in
  buildResultObject articles (validateArticles articles nowMs)
                    startedAt finishedAt = Ok report ->
  Report.statistics report = Some stats ->
  Stats.unparsableCount stats
  = length (Check.problems (checkTimestampsParsable details)) /\
  Stats.unparsableCount stats + length (parsedTimestamps details)
  = Meta.actualCount (Report.meta report).
Proof.
  intros details E Es. unfold buildResultObject in E.
  change (Validation.details (validateArticles articles nowMs)) with details in E.
  destruct (buildStats details) as [st|e] eqn:Est; [|discriminate].
  destruct (Date_toISOString startedAt) as [started|e]; [|discriminate].
  destruct (Date_toISOString finishedAt) as [finished|e]; [|discriminate].
  cbn [result_bind] in E. inversion E; subst.
  cbn [Report.statistics] in Es. cbn [Report.meta Meta.actualCount]. subst st.
  unfold buildStats in Est.
  destruct (parsedTimestamps details) as [|t0 rest] eqn:Ets; [discriminate|].
  destruct (Date_toISOString (Math_min t0 rest)); [|discriminate].
  destruct (Date_toISOString (Math_max t0 rest)); [|discriminate].
  cbn [result_bind] in Est. inversion Est; subst. cbn [Stats.unparsableCount].
  split.
  - now rewrite checkTimestampsParsable_problems, length_map.
  - rewrite <- Ets, filter_parsed_length. unfold details.
    unfold enrichArticlesWithTimestamps. apply length_imap.
Qed.

Lemma unparsableCount_matches_problems_witness :
  let articles := [mkArticle "A" "1 minute ago" None;
                   mkArticle "B" "soon" None;
                   mkArticle "C" "3 minutes ago" None] in
  Stats.unparsableCount
    (Stats.mk "2025-01-05T13:42:00.000Z" "2025-01-05T13:44:00.000Z" "0.03" 1)
  = length (Check.problems
              (checkTimestampsParsable
                 (enrichArticlesWithTimestamps articles 1736084700000))).
Proof.
  intros articles.
  refine (proj1 (unparsableCount_matches_problems articles 1736084700000
                   1736084700000 1736084701000 _ _ _ _)); reflexivity.
Defined.

(** ** The main script *)

Lemma buildResultObject_fields `{JsRuntime}
    (articles : list Article) (validationResult : Validation.t)
    (startedAt finishedAt : Z) (report : Report.t) :
  buildResultObject articles validationResult startedAt finishedAt = Ok report ->
  Report.validation report
  = Outcome.mk (Validation.isSorted validationResult)
               (Validation.isSorted validationResult)
               (length (Validation.problems validationResult))
               (Validation.problems validationResult) /\
  Meta.actualCount (Report.meta report) = length articles /\
  Meta.expectedCount (Report.meta report) = EXPECTED_ARTICLE_COUNT /\
  Meta.durationMs (Report.meta report) = (finishedAt - startedAt)%Z.
Proof.
  unfold buildResultObject.
  destruct (buildStats _) as [stats|e]; [|discriminate].
  destruct (Date_toISOString startedAt) as [started|e]; [|discriminate].
  destruct (Date_toISOString finishedAt) as [finished|e]; [|discriminate].
  cbn [result_bind]. intros E. inversion E; subst. now repeat split.
Qed.

Section MainFacts.
Context {W : Type} `{JsRuntime} `{Page W} `{Host W}.

(** The exit code after the [finally] block is the one before it, and a
    report that comes out was built from the variables as they stood. *)
Lemma finallyBlock_ok startedAt vars w report :
  Main.outcome (Main.finallyBlock startedAt vars w) = Ok report ->
  exists finishedAt,
    buildResultObject (Main.articles vars) (Main.validationResult vars)
                      startedAt finishedAt = Ok report.
Proof.
  unfold Main.finallyBlock.
  destruct (Date_now w) as [finishedAt w1].
  destruct (buildResultObject _ _ _ _) as [resultObj|e] eqn:Eb; [|discriminate].
  destruct (Main.writeJsonReport _ _ w1) as [written w2].
  destruct (closeBrowser w2) as [[[]|e] w3]; [|discriminate].
  cbn. intros E. inversion E; subst. eauto.
Qed.

Lemma finallyBlock_exitCode startedAt vars w :
  Main.finalExitCode (Main.finallyBlock startedAt vars w) = Main.exitCode vars.
Proof.
  unfold Main.finallyBlock.
  destruct (Date_now w) as [finishedAt w1].
  destruct (buildResultObject _ _ _ _) as [resultObj|e]; [|reflexivity].
  destruct (Main.writeJsonReport _ _ w1) as [written w2].
  destruct (closeBrowser w2) as [[[]|e] w3]; reflexivity.
Qed.

(** The variables after the [try] block and, when it threw, the [catch]
    block: the exit code is unset with a list that passed, and 1 otherwise. *)
Lemma try_catch_exit_code w completion vars w' :
  Main.tryBlock (Main.mkLocals [] (Validation.mk false [] []) None) w
  = (completion, vars, w') ->
  let after := match completion with
               | Ok _ => (vars, w')
               | Throw _ => Main.catchBlock vars w'
               end in
  (Main.exitCode (fst after) = None /\
   Validation.isSorted (Main.validationResult (fst after)) = true)
  \/ (Main.exitCode (fst after) = Some 1%Z /\
      Validation.isSorted (Main.validationResult (fst after)) = false).
Proof.
  unfold Main.tryBlock, Main.catchBlock.
  destruct (withRetry goto 3 2000 "initial navigation" w) as [[[]|e] w1].
  2:{ intros E. inversion E; subst. cbn.
      destruct (Main.captureScreenshot _ w') as [shot w2]. cbn. now right. }
  destruct (getFirstNArticles _ _) as [[got|e] w2].
  2:{ intros E. inversion E; subst. cbn.
      destruct (Main.captureScreenshot _ w') as [shot w3]. cbn. now right. }
  cbn [Main.validationResult Main.exitCode].
  destruct (length _ =? 0)%nat.
  { intros E. inversion E; subst. cbn.
    destruct (Main.captureScreenshot _ w') as [shot w3]. cbn. now right. }
  destruct (Date_now w2) as [nowMs w3].
  destruct (Validation.isSorted (validateArticles _ nowMs)) eqn:Es.
  - intros E. inversion E; subst. cbn. now left.
  - destruct (Main.captureScreenshot _ w3) as [shot w4].
    intros E. inversion E; subst. cbn. now right.
Qed.

End MainFacts.

(** Property X17.  Whenever the script ends with a report, the process
    exit code mirrors it: the code is left unset exactly when the report
    says [passed], and is 1 otherwise. *)
Theorem main_exit_code_mirrors_report
    {W : Type} `{JsRuntime} `{Page W} `{Host W} (w : W) (report : Report.t) :
  Main.outcome (Main.main w) = Ok report ->
  (Main.finalExitCode (Main.main w) = None <->
   Outcome.passed (Report.validation report) = true) /\
  (Main.finalExitCode (Main.main w) = None \/
   Main.finalExitCode (Main.main w) = Some 1%Z).
Proof.
  unfold Main.main.
  destruct (Date_now w) as [startedAt w1].
  destruct (launchBrowser w1) as [[[]|e] w2]; [|discriminate].
  destruct (Main.tryBlock _ w2) as [[completion vars] w3] eqn:Etry.
  pose proof (try_catch_exit_code _ _ _ _ Etry) as Hcode. cbv zeta in Hcode.
  destruct (match completion with
            | Ok _ => (vars, w3)
            | Throw _ => Main.catchBlock vars w3
            end) as [vars' w4].
  cbn [fst] in Hcode. intros E.
  rewrite finallyBlock_exitCode.
  apply finallyBlock_ok in E as [finishedAt E].
  apply buildResultObject_fields in E as (-> & _). cbn [Outcome.passed].
  destruct Hcode as [[-> ->] | [-> ->]]; split; auto; split; congruence.
Qed.

Lemma main_exit_code_mirrors_report_witness :
  Main.finalExitCode
    (Main.main (Session.start (Script.mk (Script.stories 1 2)
                                 [rev (Script.stories 3 2)] [] 0) []))
  = Some 1%Z.
Proof.
  destruct (Main.outcome
              (Main.main (Session.start (Script.mk (Script.stories 1 2)
                                           [rev (Script.stories 3 2)] [] 0) [])))
    as [report|e] eqn:E; [|vm_compute in E; discriminate].
  destruct (main_exit_code_mirrors_report _ report E) as [Hiff [Hnone|Hone]];
    [|exact Hone].
  apply Hiff in Hnone. vm_compute in E. inversion E; subst. discriminate.
Defined.



(** Property X19.  When articles were collected, the script validates
    exactly the collected list against one reading of the clock, taken
    after the collection; the report carries that verdict, its problems and
    the number of collected articles (expected count 200 whatever was
    collected), and the exit code is left unset when the list passed and
    set to 1 when it did not. *)
Theorem main_reports_the_validation
    {W : Type} `{JsRuntime} `{Page W} `{Host W}
    (w : W) (startedAt : Z) (w1 w2 w3 : W)
    (collected : list Article) (w4 : W) (nowMs : Z) (w5 : W) :
  Date_now w = (startedAt, w1) -> launchBrowser w1 = (Ok tt, w2) ->
  withRetry goto 3 2000 "initial navigation" w2 = (Ok tt, w3) ->
  getFirstNArticles EXPECTED_ARTICLE_COUNT (sleep 1000 w3)
  = (Ok (Some collected), w4) ->
  collected <> [] ->
  Date_now w4 = (nowMs, w5) ->
  let verdict := validateArticles collected nowMs in
  Main.finalExitCode (Main.main w)
  = (if Validation.isSorted verdict then None else Some 1%Z) /\
  forall report, Main.outcome (Main.main w) = Ok report ->
    Report.validation report
    = Outcome.mk (Validation.isSorted verdict) (Validation.isSorted verdict)
                 (length (Validation.problems verdict))
                 (Validation.problems verdict) /\
    Meta.actualCount (Report.meta report) = length collected /\
    Meta.expectedCount (Report.meta report) = 200.
Proof.
  intros Enow Elaunch Egoto Eget Hne Eclock verdict.
  assert (exists w6 : W,
            Main.main w
            = Main.finallyBlock startedAt
                (Main.mkLocals collected verdict
                   (if Validation.isSorted verdict then None else Some 1%Z)) w6)
    as (w6 & ->).
  { unfold Main.main. rewrite Enow, Elaunch. unfold Main.tryBlock.
    rewrite Egoto, Eget.
    assert ((length collected =? 0)%nat = false) as ->
      by (destruct collected; [congruence | reflexivity]).
    rewrite Eclock. fold verdict. cbn [Main.validationResult Main.exitCode].
    destruct (Validation.isSorted verdict); [eauto|].
    destruct (Main.captureScreenshot _ w5) as [shot w6]. eauto. }
  split; [apply finallyBlock_exitCode|].
  intros report E. apply finallyBlock_ok in E as [finishedAt E].
  cbn [Main.articles Main.validationResult] in E.
  apply buildResultObject_fields in E as (Ev & Ec & Ee & _).
  now repeat split.
Qed.

Lemma main_reports_the_validation_witness :
  Main.finalExitCode (Main.main (Session.start Script.four_by_three [false]))
  = None.
Proof.
  pose (w0 := Session.start Script.four_by_three [false]).
  pose (w3 := Session.mk (Script.mk (Script.stories 1 4)
                            [Script.stories 5 4; Script.stories 9 4; []] [] 2000)
                         [] 1736084700000 [] []).
  pose (w4 := Session.mk (Script.mk [] [] [] 4500) [] 1736084700000 [] []).
  assert (Validation.isSorted
            (validateArticles (Script.stories 1 12) 1736084704500) = true)
    as Hsorted by (vm_compute; reflexivity).
  pose proof (fun e0 e1 e2 e3 n e4 =>
                proj1 (main_reports_the_validation
                         w0 1736084700000%Z w0 w0 w3 (Script.stories 1 12)
                         w4 1736084704500%Z w4 e0 e1 e2 e3 n e4)) as P.
  rewrite Hsorted in P. apply P.
  - reflexivity.
  - reflexivity.
  - vm_compute. reflexivity.
  - vm_compute. reflexivity.
  - discriminate.
  - reflexivity.
Defined.

(** ** A page whose content never appears *)

(** Property X20.  When the wait for the article rows times out, the page
    counts as empty: the rows are not extracted, and the run returns the
    accumulator as it was instead of throwing. *)
Theorem getFirstNArticles_wait_timeout {W : Type} `{Page W}
    (n : nat) (w0 : W) (acc : list Article) (visited : nat) (w : W)
    (err : exn) (w1 : W) :
  Reaches n w0 acc visited w ->
  length acc < n -> visited < MAX_PAGES_TO_VISIT ->
  waitForSelector w = (Throw err, w1) ->
  scrapeArticlesOnPage w = (Ok [], w1) /\
  getFirstNArticles n w0 = (Ok (Some acc), w1).
Proof.
  intros R Hn Hp Ewait.
  assert (scrapeArticlesOnPage w = (Ok [], w1)) as Es
    by (unfold scrapeArticlesOnPage, bind, try; now rewrite Ewait).
  split; [exact Es|].
  rewrite (getFirstNArticles_break _ _ _ _ _ _ _ R
             (loopRound_empty _ _ _ _ _ Hn Hp Es)).
  cbn [collected]. rewrite take_ge by lia. reflexivity.
Qed.

Lemma getFirstNArticles_wait_timeout_witness :
  getFirstNArticles 20 Script.four_by_three
  = (Ok (Some (Script.stories 1 12)), Script.mk [] [] [] 1500).
Proof.
  refine (proj2 (getFirstNArticles_wait_timeout 20 Script.four_by_three
                   (Script.stories 1 12) 3 _ Script.timeout _
                   four_by_three_fourth_round _ _ _)).
  - simpl. lia.
  - unfold MAX_PAGES_TO_VISIT. lia.
  - reflexivity.
Defined.
